(** * The IMPROVER command line: bracket parser, carrier, evaluator, output

    A shallow embedding of [improver/cli/__init__.py],
    [improver/cli/clize_framework.py] and the velocity guard of
    [improver/cli/nowcast_extrapolate.py], with the properties the
    specification states about them. *)

From Stdlib Require Import String Ascii List ZArith Lia Bool DecimalString.
Import ListNotations.
Open Scope string_scope.
Open Scope list_scope.

Set Implicit Arguments.

(** ** Python values

    Only the distinctions the command line code makes are kept: [None],
    [str], [list]/[tuple], an [ObjectAsStr] instance, and any other object
    (a cube, a number, ...), known by its class and its identity. *)

Inductive seq_kind : Type := SeqList | SeqTuple.

#[local] Unset Elimination Schemes.

Inductive pyobj : Type :=
| PyNone
| PyStr (s : string)
| PySeq (kind : seq_kind) (items : list pyobj)
| PyObj (cls_module cls_name : string) (ident : Z)
| PyCarrier (addr : nat) (name : string) (original_object : pyobj).

#[local] Set Elimination Schemes.

(** [PyCarrier addr name obj] is an [ObjectAsStr]: a [str] whose text is
    [name], whose slot [original_object] holds [obj], and whose identity
    (what Python's [is] compares) is the address [addr] it was allocated
    at. *)

(** [isinstance(obj, str)]: [ObjectAsStr] subclasses [str]. *)
Definition is_str (obj : pyobj) : bool :=
  match obj with
  | PyStr _ | PyCarrier _ _ _ => true
  | _ => false
  end.

(** [isinstance(obj, ObjectAsStr)]. *)
Definition is_carrier (obj : pyobj) : bool :=
  match obj with
  | PyCarrier _ _ _ => true
  | _ => false
  end.

(** [isinstance(obj, (list, tuple))]. *)
Definition is_seq (obj : pyobj) : bool :=
  match obj with
  | PySeq _ _ => true
  | _ => false
  end.

(** Truth value of an object in an [if]: [None] is false, a string, a
    list or a tuple is true when it is not empty, and for any other
    object its class decides ([__bool__], [__len__]; [0] and [False] are
    false), which [py_truth] stands for. *)
Definition truthy (py_truth : pyobj -> bool) (obj : pyobj) : bool :=
  match obj with
  | PyNone => false
  | PyStr s | PyCarrier _ s _ => negb (s =? "")
  | PySeq _ items => match items with [] => false | _ => true end
  | PyObj _ _ _ => py_truth obj
  end.

(** Induction over values that reaches inside sequences. *)
Section pyobj_nested_ind.
Variable P : pyobj -> Prop.
Hypothesis HNone : P PyNone.
Hypothesis HStr : forall s, P (PyStr s).
Hypothesis HSeq : forall k items, Forall P items -> P (PySeq k items).
Hypothesis HObj : forall m n i, P (PyObj m n i).
Hypothesis HCarrier : forall a n o, P o -> P (PyCarrier a n o).

Fixpoint pyobj_nested_ind (obj : pyobj) : P obj :=
  match obj with
  | PyNone => HNone
  | PyStr s => HStr s
  | PySeq k items =>
      HSeq k ((fix all (l : list pyobj) : Forall P l :=
                 match l with
                 | [] => Forall_nil P
                 | x :: r => Forall_cons x (pyobj_nested_ind x) (all r)
                 end) items)
  | PyObj m n i => HObj m n i
  | PyCarrier a n o => HCarrier a n (pyobj_nested_ind o)
  end.
End pyobj_nested_ind.

(** ** Exceptions and results *)

Inductive exn : Type :=
| ValueError (msg : string)
| OtherError (cls msg : string).

Inductive result (A : Type) : Type :=
| OK (a : A)
| Error (e : exn).

Arguments OK {A} a.
Arguments Error {A} e.

(** ['%i' % n] *)
Definition format_nat (n : nat) : string :=
  NilEmpty.string_of_uint (Nat.to_uint n).

Definition format_int (z : Z) : string :=
  NilEmpty.string_of_int (Z.to_int z).

(** ** The bracket parser *)

Module Bracket.

(** ['Mismatched bracket at position %i.' % i] *)
Definition mismatch_msg (i : nat) : string :=
  "Mismatched bracket at position " ++ format_nat i ++ ".".

(** The [for] loop of [unbracket], from index [i] on the remaining
    tokens.  [stack] has its top (Python's [stack[-1]]) at the head.
    Every list object is referenced from one place only (the variable
    [outargs], one stack slot, or one enclosing list), so the in-place
    [append]s are modelled by values. *)
Fixpoint scan (args : list string) (i : nat)
         (stack : list (list pyobj)) (outargs : list pyobj)
  : result (list (list pyobj) * list pyobj) :=
  match args with
  | [] => OK (stack, outargs)
  | tok :: rest =>
      if tok =? "[" then
        scan rest (S i) (outargs :: stack) []
      else if tok =? "]" then
        match stack with
        | [] => Error (ValueError (mismatch_msg i))
        | top :: below =>
            scan rest (S i) below (top ++ [PySeq SeqList outargs])
        end
      else
        scan rest (S i) stack (outargs ++ [PyStr tok])
  end.

Definition unbracket (args : list string) : result (list pyobj) :=
  match scan args 0 [] [] with
  | Error e => Error e
  | OK (stack, outargs) =>
      match stack with
      | [] => OK outargs
      | _ :: _ => Error (ValueError (mismatch_msg (length args)))
      end
  end.

(** *** What the specification calls balanced

    The nesting depth after the tokens, starting at depth [d]; [None]
    when a [']'] closes nothing. *)
Fixpoint depth_after (d : nat) (tokens : list string) : option nat :=
  match tokens with
  | [] => Some d
  | tok :: rest =>
      if tok =? "[" then depth_after (S d) rest
      else if tok =? "]" then
        match d with
        | 0 => None
        | S d' => depth_after d' rest
        end
      else depth_after d rest
  end.

Definition balanced (tokens : list string) : bool :=
  match depth_after 0 tokens with
  | Some 0 => true
  | _ => false
  end.

Definition is_bracket (tok : string) : bool :=
  (tok =? "[") || (tok =? "]").

(** *** Traversals of the nested list *)

(** The leaves, left to right; nothing is emitted for the brackets. *)
Fixpoint flatten (node : pyobj) : list string :=
  match node with
  | PyStr s => [s]
  | PySeq _ items => flat_map flatten items
  | _ => []
  end.

Definition flatten_all (nodes : list pyobj) : list string :=
  flat_map flatten nodes.

(** The same traversal, writing the brackets back. *)
Fixpoint rebracket (node : pyobj) : list string :=
  match node with
  | PyStr s => [s]
  | PySeq _ items => "[" :: flat_map rebracket items ++ ["]"]
  | _ => []
  end.

Definition rebracket_all (nodes : list pyobj) : list string :=
  flat_map rebracket nodes.

(** The tokens a parser state stands for: the open frames, bottom
    first, each followed by its ['['], then the current frame. *)
Fixpoint frames_tokens (stack : list (list pyobj)) : list string :=
  match stack with
  | [] => []
  | top :: below => frames_tokens below ++ rebracket_all top ++ ["["]
  end.

Fixpoint frames_leaves (stack : list (list pyobj)) : list string :=
  match stack with
  | [] => []
  | top :: below => frames_leaves below ++ flatten_all top
  end.

(** The three kinds of token. *)
Variant token_kind (tok : string) : Prop :=
| IsOpen : tok = "[" -> token_kind tok
| IsClose : tok = "]" -> (tok =? "[") = false -> token_kind tok
| IsLeaf : (tok =? "[") = false -> (tok =? "]") = false -> token_kind tok.

End Bracket.

(** ** A state and exception monad

    Python code that calls out, prints, allocates or raises is a function
    from the state before to an outcome and the state after; an exception
    keeps the state reached when it was raised. *)

Definition M (S A : Type) : Type := S -> result A * S.

Definition ret {S A : Type} (a : A) : M S A := fun s => (OK a, s).

Definition raise {S A : Type} (e : exn) : M S A := fun s => (Error e, s).

Definition bind {S A B : Type} (c : M S A) (k : A -> M S B) : M S B :=
  fun s =>
    match c s with
    | (OK a, s') => k a s'
    | (Error e, s') => (Error e, s')
    end.

Declare Scope py_scope.
Delimit Scope py_scope with py.

Notation "x <- c ;; k" := (bind c (fun x => k))
  (at level 61, c at next level, right associativity) : py_scope.
Notation "c ;;; k" := (bind c (fun _ => k))
  (at level 61, right associativity) : py_scope.

Open Scope py_scope.

(** ** The carrier and the evaluator *)

(** One call of the dispatcher: [dispatcher(progname, *args)]. *)
Record call : Type := Call { call_progname : string; call_args : list pyobj }.

Section Evaluator.

(** State of the commands behind the dispatcher. *)
Variable E : Type.

(** The interpreter state the evaluator runs in. *)
Record world : Type := World {
  ext : E;                    (* state of the commands *)
  calls : list call;          (* dispatcher calls so far, oldest first *)
  stdout : list string;       (* lines printed so far, oldest first *)
  saved : list (pyobj * pyobj);  (* (result, destination) written so far *)
  next_addr : nat             (* address of the next carrier *)
}.

(** [hash(obj)], [None] where it raises [TypeError], and [id(obj)]:
    run-time values the code only formats.  A list or a tuple is known
    here by its items, not by its address: what is stated of the name of
    a list holds for whichever [id] the list has. *)
Variable py_hash : pyobj -> option Z.
Variable py_id : pyobj -> Z.

(** [str(obj)] of an object that is not a string. *)
Variable py_repr : pyobj -> string.

(** [(type(obj).__module__, type(obj).__name__)] *)
Definition type_of (obj : pyobj) : string * string :=
  match obj with
  | PyNone => ("builtins", "NoneType")
  | PyStr _ => ("builtins", "str")
  | PySeq SeqList _ => ("builtins", "list")
  | PySeq SeqTuple _ => ("builtins", "tuple")
  | PyObj m n _ => (m, n)
  | PyCarrier _ _ _ => ("improver.cli", "ObjectAsStr")
  end.

(** [ObjectAsStr.object2name(obj)] *)
Definition object2name (obj : pyobj) : string :=
  let cls := type_of obj in
  let obj_id :=
    match py_hash obj with
    | Some h => h
    | None => py_id obj
    end in
  "<" ++ fst cls ++ "." ++ snd cls ++ "@" ++ format_int obj_id ++ ">".

(** [str.__new__(cls, name)] followed by the slot assignment: a new
    object at a fresh address. *)
Definition new_carrier (name : string) (obj : pyobj) : M world pyobj :=
  fun w =>
    (OK (PyCarrier (next_addr w) name obj),
     World (ext w) (calls w) (stdout w) (saved w) (S (next_addr w))).

(** [ObjectAsStr(obj, name)], that is [ObjectAsStr.__new__]. *)
Definition ObjectAsStr (obj : pyobj) (name : option string)
  : M world pyobj :=
  if is_carrier obj then ret obj
  else
    let name' :=
      match name with
      | None => object2name obj
      | Some n => n
      end in
    new_carrier name' obj.

(** [obj.original_object] *)
Definition original_object (obj : pyobj) : option pyobj :=
  match obj with
  | PyCarrier _ _ o => Some o
  | _ => None
  end.

(** [maybe_coerce_with(convert, obj)]; [getattr(obj, 'original_object',
    obj)] falls back on [obj] itself. *)
Definition maybe_coerce_with (convert : pyobj -> M world pyobj)
           (obj : pyobj) : M world pyobj :=
  let obj :=
    match original_object obj with
    | Some o => o
    | None => obj
    end in
  if is_str obj then convert obj else ret obj.

(** The dispatcher: it sees the program name and the arguments, works on
    the commands' state, and returns or raises. *)
Variable dispatcher : string -> list pyobj -> E -> result pyobj * E.

(** [dispatcher(progname, *args)], recorded in [calls]. *)
Definition call_dispatcher (progname : string) (args : list pyobj)
  : M world pyobj :=
  fun w =>
    let (r, e) := dispatcher progname args (ext w) in
    (r, World e (calls w ++ [Call progname args]) (stdout w) (saved w)
              (next_addr w)).

(** The text [print] writes for one argument. *)
Definition echo_text (obj : pyobj) : string :=
  match obj with
  | PyStr s | PyCarrier _ s _ => s
  | _ => py_repr obj
  end.

(** [print(progname, *args, ' -> ', name)] *)
Definition echo_line (progname : string) (args : list pyobj)
           (name : string) : string :=
  String.concat " " (progname :: map echo_text args ++ [" -> "; name]).

Definition print (line : string) : M world unit :=
  fun w =>
    (OK tt, World (ext w) (calls w) (stdout w ++ [line]) (saved w)
                  (next_addr w)).

Section Pass.
(** [execute_command(dispatcher, progname, *arg, ...)] for a nested
    [arg]. *)
Variable nested : pyobj -> M world pyobj.

(** One turn of the [for] loop: what [args[i]] becomes. *)
Definition resolve_arg (arg : pyobj) : M world pyobj :=
  arg <- (if is_seq arg then nested arg else ret arg) ;;
  if is_str arg then ret arg else ObjectAsStr arg None.

(** The [for] loop over [args]. *)
Fixpoint resolve_args (args : list pyobj) : M world (list pyobj) :=
  match args with
  | [] => ret []
  | arg :: rest =>
      arg' <- resolve_arg arg ;;
      rest' <- resolve_args rest ;;
      ret (arg' :: rest')
  end.
End Pass.

(** What follows the loop. *)
Definition run_resolved (progname : string) (verbose dry_run : bool)
           (args : list pyobj) : M world pyobj :=
  result <- (if dry_run then ret (PySeq SeqList args)
             else call_dispatcher progname args) ;;
  (if verbose || dry_run
   then print (echo_line progname args (object2name result))
   else ret tt) ;;;
  ret result.

(** [execute_command(dispatcher, progname, *arg, ..)] for an argument
    [arg] that is a list or a tuple, the only ones the loop enters it
    for; the recursion is on the nesting of the argument. *)
Fixpoint execute_nested (progname : string) (verbose dry_run : bool)
         (arg : pyobj) : M world pyobj :=
  match arg with
  | PySeq _ items =>
      args <- resolve_args (execute_nested progname verbose dry_run)
                           items ;;
      run_resolved progname verbose dry_run args
  | _ => ret arg
  end.

(** [execute_command(dispatcher, progname, *args, verbose=..,
    dry_run=..)] *)
Definition execute_command (progname : string) (verbose dry_run : bool)
           (args : list pyobj) : M world pyobj :=
  args <- resolve_args (execute_nested progname verbose dry_run) args ;;
  run_resolved progname verbose dry_run args.

End Evaluator.

Arguments World {E} ext calls stdout saved next_addr.
Arguments ext {E} w.
Arguments calls {E} w.
Arguments stdout {E} w.
Arguments saved {E} w.
Arguments next_addr {E} w.

(** [main(progname, command, *args, verbose=.., dry_run=..)] of
    [improver/cli/__init__.py], after the parameter binder has split the
    command line. *)
Definition main {E : Type} (py_hash : pyobj -> option Z) (py_id : pyobj -> Z)
           (py_repr : pyobj -> string)
           (dispatcher : string -> list pyobj -> E -> result pyobj * E)
           (progname command : string) (args : list string)
           (verbose dry_run : bool) : M (world E) pyobj :=
  match Bracket.unbracket args with
  | Error e => raise e
  | OK args =>
      execute_command py_hash py_id py_repr dispatcher progname verbose
                      dry_run (PyStr command :: args)
  end.

(** ** Output handling *)

Section Output.

Variable E : Type.

(** The truth value of an object that is not [None], a string, a list
    or a tuple. *)
Variable py_truth : pyobj -> bool.

(** Modelled from the spec: [improver.utilities.save.save_netcdf], the
    persistence hook, is not among the sources; it writes the result to
    the destination, which the state records. *)
Definition save_netcdf (result output : pyobj) : M (world E) unit :=
  fun w =>
    (OK tt, World (ext w) (calls w) (stdout w)
                  (saved w ++ [(result, output)]) (next_addr w)).

(** [with_output(wrapped, *args, output=output, **kwargs)]; [wrapped]
    stands for the call [wrapped( *args, **kwargs)]. *)
Definition with_output (wrapped : M (world E) pyobj) (output : pyobj)
  : M (world E) pyobj :=
  result <- wrapped ;;
  if truthy py_truth output then
    save_netcdf result output ;;;
    ret PyNone
  else ret result.

End Output.

(** ** The earlier framework, [clize_framework.py] *)

Module ClizeFramework.

(** The text of a [str], for its methods and its [==]. *)
Definition str_text (obj : pyobj) : option string :=
  match obj with
  | PyStr s | PyCarrier _ s _ => Some s
  | _ => None
  end.

(** [s.partition(sep)] for a one-character separator. *)
Fixpoint partition (sep : ascii) (s : string) : string * string * string :=
  match s with
  | EmptyString => ("", "", "")
  | String c rest =>
      if Ascii.eqb c sep then ("", String sep "", rest)
      else
        let '(head, found, tail) := partition sep rest in
        (String c head, found, tail)
  end.

Definition outopt : string := "--output".

(** [args[n]] with [IndexError] as [None]. *)
Definition item (args : list pyobj) (n : nat) : option pyobj :=
  nth_error args n.

(** The loop [for i, arg in enumerate(args, 1)] from counter [i] on;
    [all_args] is the whole tuple that [args[i + 1]] indexes. *)
Fixpoint scan_output (all_args : list pyobj) (i : nat)
         (args : list pyobj) : list pyobj :=
  match args with
  | [] => []
  | arg :: rest =>
      match str_text arg with
      | Some s =>
          if String.prefix outopt s then
            let '(_, sep, output) := partition "="%char s in
            let output :=
              if sep =? "" then
                match item all_args (i + 1) with
                | Some o => o
                | None => PyStr ""
                end
              else PyStr output in
            [PyStr outopt; output]
          else scan_output all_args (S i) rest
      | None => scan_output all_args (S i) rest
      end
  end.

(** [preprocess_command(progname, command, *args)] *)
Definition preprocess_command (progname command : string)
           (args : list pyobj) : string * list pyobj * list pyobj :=
  (command, args, scan_output args 1 args).

(** [post_args.index('--output')], [None] for [ValueError]. *)
Fixpoint index_of (x : string) (l : list pyobj) : option nat :=
  match l with
  | [] => None
  | y :: rest =>
      match str_text y with
      | Some s =>
          if s =? x then Some 0 else option_map S (index_of x rest)
      | None => option_map S (index_of x rest)
      end
  end.

(** [postprocess_command(progname, result, *post_args)] *)
Definition postprocess_command (progname : string) (result : pyobj)
           (post_args : list pyobj) : pyobj :=
  match index_of outopt post_args with
  | None => result
  | Some n =>
      match item post_args (n + 1) with
      | None => result
      | Some _ => PyNone
      end
  end.

(** The destination [preprocess_command] hands on, [post_args[1]]. *)
Definition destination (args : list pyobj) : option pyobj :=
  let '(_, _, post_args) := preprocess_command "improver" "command" args in
  item post_args 1.

(** An argument that is not an output option. *)
Definition not_outopt (arg : pyobj) : Prop :=
  match str_text arg with
  | Some s => String.prefix outopt s = false
  | None => True
  end.

End ClizeFramework.

(** ** [nowcast_extrapolate.process] *)

Module NowcastExtrapolate.

(** What the function does outside itself, in order. *)
Inductive event : Type :=
| ResolvedWind
| Extrapolated (time_interval max_lead_time : Z)
| Merged.

Section Process.

(** Cubes, attribute dictionaries, and the state of the plugins. *)
Variables cube attrs E : Type.

Record state : Type := State { plugins : E; events : list event }.

(** [ResolveWindComponents().process(speed_cube, direction_cube)] *)
Variable resolve_wind :
  option cube -> option cube -> E -> result (cube * cube) * E.

(** [CreateExtrapolationForecast(input_cube, u_cube, v_cube,
    orographic_enhancement_cube=.., attributes_dict=..)
    .process(time_interval, max_lead_time)] *)
Variable extrapolate :
  option cube -> option cube -> option cube -> option cube ->
  option attrs -> Z -> Z -> E -> result (list cube) * E.

(** Printing the histories and [CubeList(..).merge_cube()]. *)
Variable merge_cube : list cube -> list cube -> E -> result cube * E.

(** [np.modf(max_lead_time / accumulation_fidelity)[0] != 0]: whether
    the floating-point quotient of the two integers has a fractional
    part, or the exception of the division.  Floating-point arithmetic
    is left to the run time. *)
Variable fraction_nonzero : Z -> Z -> result bool.

Definition plugin {A : Type} (ev : event) (f : E -> result A * E)
  : M state A :=
  fun s =>
    let (r, e) := f (plugins s) in
    (r, State e (events s ++ [ev])).

Definition mix_msg : string :=
  "Cannot mix advection component velocities with speed and direction".

Definition fidelity_msg (lead_time_interval accumulation_fidelity : Z)
  : string :=
  "The specified lead_time_interval (" ++ format_int lead_time_interval
  ++ ") is not cleanly divisible by the specified accumulation_fidelity ("
  ++ format_int accumulation_fidelity
  ++ "). As a result the lead_time_interval cannot be constructed from"
  ++ " accumulation cubes at this fidelity.".

(** The truth value of an argument that is a cube or [None]: a cube
    object counts as true. *)
Definition given (c : option cube) : bool :=
  match c with
  | Some _ => true
  | None => false
  end.

(** The first [if]/[elif]/[else]: the velocities to advect with. *)
Definition velocities (u_cube v_cube speed_cube direction_cube
                       : option cube)
  : M state (option cube * option cube) :=
  if (given speed_cube && given direction_cube)
     && negb (given u_cube || given v_cube) then
    uv <- plugin ResolvedWind (resolve_wind speed_cube direction_cube) ;;
    ret (Some (fst uv), Some (snd uv))
  else if given u_cube && given v_cube
          && negb (given speed_cube || given direction_cube) then
    ret (u_cube, v_cube)
  else raise (ValueError mix_msg).

(** [l[::step]] for a positive step, [skip] items before the next one
    kept. *)
Fixpoint every (step skip : nat) (l : list cube) : list cube :=
  match l with
  | [] => []
  | x :: rest =>
      match skip with
      | 0 => x :: every step (step - 1) rest
      | S skip' => every step skip' rest
      end
  end.

(** [l[::step]] *)
Definition stride (step : Z) (l : list cube) : result (list cube) :=
  if (step =? 0)%Z then Error (ValueError "slice step cannot be zero")
  else if (0 <? step)%Z then OK (every (Z.to_nat step) 0 l)
  else OK (every (Z.to_nat (- step)) 0 (rev l)).

(** [process(input_cube, u_cube, v_cube, speed_cube, direction_cube,
    orographic_enhancement_cube, attributes_dict, max_lead_time,
    lead_time_interval, accumulation_fidelity)] *)
Definition process (input_cube u_cube v_cube speed_cube direction_cube
                    orographic_enhancement_cube : option cube)
           (attributes_dict : option attrs)
           (max_lead_time lead_time_interval accumulation_fidelity : Z)
  : M state cube :=
  uv <- velocities u_cube v_cube speed_cube direction_cube ;;
  time_interval <-
    (if (0 <? accumulation_fidelity)%Z then
       match fraction_nonzero max_lead_time accumulation_fidelity with
       | Error e => raise e
       | OK true =>
           raise (ValueError (fidelity_msg lead_time_interval
                                           accumulation_fidelity))
       | OK false => ret accumulation_fidelity
       end
     else ret lead_time_interval) ;;
  forecast_cubes <-
    plugin (Extrapolated time_interval max_lead_time)
           (extrapolate input_cube (fst uv) (snd uv)
                        orographic_enhancement_cube attributes_dict
                        time_interval max_lead_time) ;;
  lead_time_filter <-
    (if (time_interval =? 0)%Z
     then raise (OtherError "ZeroDivisionError"
                            "integer division or modulo by zero")
     else ret (lead_time_interval / time_interval)%Z) ;;
  match stride lead_time_filter forecast_cubes with
  | Error e => raise e
  | OK forecast_to_return =>
      plugin Merged (merge_cube forecast_cubes forecast_to_return)
  end.

(** The precondition of the docstring, "(s and d) xor (u and v)" with
    the other pair absent. *)
Definition one_velocity_specification
           (u_cube v_cube speed_cube direction_cube : option cube)
  : bool :=
  (given speed_cube && given direction_cube
   && negb (given u_cube) && negb (given v_cube))
  || (given u_cube && given v_cube
      && negb (given speed_cube) && negb (given direction_cube)).

End Process.

End NowcastExtrapolate.

(** ** Shapes used to state the evaluator's properties *)

(** The text of an argument that is a plain string. *)
Definition leaf_text (arg : pyobj) : option string :=
  match arg with
  | PyStr s => Some s
  | _ => None
  end.

(** The dispatcher calls a command line asks for, innermost first and
    siblings left to right, the enclosing invocation last.  Each call is
    given by its plain-string arguments; [None] stands where the value is
    only known when the line runs. *)
Fixpoint expected_calls (arg : pyobj) : list (list (option string)) :=
  match arg with
  | PySeq _ items => flat_map expected_calls items ++ [map leaf_text items]
  | _ => []
  end.

Definition expected_calls_of (args : list pyobj)
  : list (list (option string)) :=
  flat_map expected_calls args ++ [map leaf_text args].

(** The outcome is a value, not an exception. *)
Definition returned {A : Type} (r : result A) : bool :=
  match r with
  | OK _ => true
  | Error _ => false
  end.

(** Every argument of the call is a [str]. *)
Definition all_strings (c : call) : bool := forallb is_str (call_args c).

(** An argument handed to the dispatcher fits its place in the line. *)
Definition fits_slot (slot : option string) (arg : pyobj) : Prop :=
  match slot with
  | Some s => arg = PyStr s
  | None => is_str arg = true
  end.

Definition fits_call (progname : string) (slots : list (option string))
           (c : call) : Prop :=
  call_progname c = progname /\ Forall2 fits_slot slots (call_args c).

(** What an argument becomes under a dry run: a string stays, anything
    else goes into a carrier, a nested line as the list of what its own
    arguments became. *)
#[local] Unset Elimination Schemes.


#[local] Set Elimination Schemes.

(** The calls made follow the expected ones: they fit an initial part of
    them, one by one and in order, and all of them when the run is
    complete. *)
Definition follows (progname : string)
           (expected : list (list (option string))) (complete : bool)
           (made : list call) : Prop :=
  exists done rest,
    expected = done ++ rest
    /\ Forall2 (fits_call progname) done made
    /\ (complete = true -> rest = []).

(** The number of invocations in a command line. *)
Fixpoint invocations (arg : pyobj) : nat :=
  match arg with
  | PySeq _ items => S (list_sum (map invocations items))
  | _ => 0
  end.





(** No carrier holds a carrier. *)
Definition single_indirection (obj : pyobj) : Prop :=
  match obj with
  | PyCarrier _ _ o => is_carrier o = false
  | _ => True
  end.

(** ** Concrete run-time values for the examples *)

Module Examples.

(** [hash]: defined on everything but lists, an [int] hashes to
    itself. *)
Definition hash (obj : pyobj) : option Z :=
  match obj with
  | PyNone => Some 0%Z
  | PyStr s | PyCarrier _ s _ => Some (Z.of_nat (String.length s))
  | PySeq SeqList _ => None
  | PySeq SeqTuple items => Some (Z.of_nat (List.length items))
  | PyObj _ _ i => Some i
  end.

(** [id]: some address. *)
Definition id (obj : pyobj) : Z :=
  match obj with
  | PySeq _ items => (7000 + Z.of_nat (List.length items))%Z
  | _ => 7000%Z
  end.

Definition repr (obj : pyobj) : string := "<object>".

Definition w0 : world unit := World tt [] [] [] 0.

Definition five : pyobj := PyObj "builtins" "int" 5.

Definition cube : pyobj := PyObj "iris.cube" "Cube" 42.

(** A dispatcher whose every command returns the same cube. *)
Definition cube_dispatcher (progname : string) (args : list pyobj)
           (e : unit) : result pyobj * unit :=
  (OK cube, e).

(** A dispatcher whose commands return text, as [help] does. *)
Definition text_dispatcher (progname : string) (args : list pyobj)
           (e : unit) : result pyobj * unit :=
  (OK (PyStr "usage"), e).

(** [cmd_outer [ cmd_inner a b ] c] after [unbracket]. *)
Definition nested_line : list pyobj :=
  [PyStr "cmd_outer";
   PySeq SeqList [PyStr "cmd_inner"; PyStr "a"; PyStr "b"];
   PyStr "c"].

(** [five] inside a carrier, as [ObjectAsStr(5)] makes it first. *)
Definition five_carrier : pyobj := PyCarrier 0 "<builtins.int@5>" five.

(** A path inside a carrier, [ObjectAsStr('a.nc')]. *)
Definition path_carrier : pyobj :=
  PyCarrier 0 "<builtins.str@4>" (PyStr "a.nc").

(** The state after one carrier was made. *)
Definition w1 : world unit := World tt [] [] [] 1.

(** The tokens of [cmd_outer [ cmd_inner a b ] c] after the command. *)
Definition nested_tokens : list string :=
  ["["; "cmd_inner"; "a"; "b"; "]"; "c"].

(** A command wrapped by [with_output] that returns the cube. *)
Definition cube_command : M (world unit) pyobj := ret cube.

(** A converter that finds no file. *)
Definition failing_convert (obj : pyobj) : M (world unit) pyobj :=
  raise (OtherError "OSError" "file not found").

End Examples.

(** ** Shapes used to state more about the bracket parser *)

(** A node the parser can produce: a plain string that is no bracket, or
    a list of such nodes. *)
Fixpoint well_formed (node : pyobj) : bool :=
  match node with
  | PyStr s => negb (Bracket.is_bracket s)
  | PySeq SeqList items => forallb well_formed items
  | _ => false
  end.


(** ** The intermediate output wrapper *)

Section IntermediateOutput.

Variable E : Type.

(** The truth value of an object that is not [None], a string, a list
    or a tuple. *)
Variable py_truth : pyobj -> bool.

(** [iter(obj)] for an object that is neither a list nor a tuple: its
    items, or the [TypeError] of an object that cannot be unpacked. *)
Variable py_iter : pyobj -> result (list pyobj).

(** The items the assignment [result, intermediate_result = obj] runs
    over. *)
Definition unpack_items (obj : pyobj) : result (list pyobj) :=
  match obj with
  | PySeq _ items => OK items
  | _ => py_iter obj
  end.

(** [result, intermediate_result = obj] *)
Definition unpack_pair (obj : pyobj) : result (pyobj * pyobj) :=
  match unpack_items obj with
  | Error e => Error e
  | OK [result; intermediate_result] => OK (result, intermediate_result)
  | OK (_ :: _ :: _ :: _) =>
      Error (ValueError "too many values to unpack (expected 2)")
  | OK items =>
      Error (ValueError ("not enough values to unpack (expected 2, got "
                           ++ format_nat (length items) ++ ")"))
  end.

(** [with_intermediate_output(wrapped, *args,
    intermediate_output=intermediate_output, **kwargs)]; [wrapped] stands
    for the call [wrapped( *args, **kwargs)]. *)
Definition with_intermediate_output (wrapped : M (world E) pyobj)
           (intermediate_output : pyobj) : M (world E) pyobj :=
  returned_value <- wrapped ;;
  match unpack_pair returned_value with
  | Error e => raise e
  | OK (result, intermediate_result) =>
      (if truthy py_truth intermediate_output
       then save_netcdf intermediate_result intermediate_output
       else ret tt) ;;;
      ret result
  end.

End IntermediateOutput.

(** ** Shapes used to state more about the evaluator *)

(** Two states that differ at most in what was printed. *)
Definition same_but_stdout {E : Type} (w w' : world E) : Prop :=
  ext w = ext w' /\ calls w = calls w' /\ saved w = saved w'
  /\ next_addr w = next_addr w'.

Module MoreExamples.


(** A wrapped command that returns a result and an intermediate one. *)
Definition pair_command : M (world unit) pyobj :=
  ret (PySeq SeqTuple [Examples.cube; Examples.five]).

(** The truth value of the other objects: the integer zero is false,
    a cube is true. *)
Definition truth (obj : pyobj) : bool :=
  match obj with
  | PyObj "builtins" "int" 0 => false
  | _ => true
  end.

(** The integer zero. *)
Definition zero : pyobj := PyObj "builtins" "int" 0.

(** Nothing but lists and tuples can be unpacked. *)
Definition no_iter (obj : pyobj) : result (list pyobj) :=
  Error (OtherError "TypeError" "cannot unpack non-iterable object").

End MoreExamples.

(** Two nested evaluators that agree on an argument up to what is
    printed. *)
Definition agree {E : Type} (n1 n2 : pyobj -> M (world E) pyobj)
           (arg : pyobj) : Prop :=
  forall w w',
    same_but_stdout w w' ->
    fst (n1 arg w) = fst (n2 arg w')
    /\ same_but_stdout (snd (n1 arg w)) (snd (n2 arg w')).

(** What a run printed: nothing without [verbose]; with it, [count]
    lines when the run returned and fewer when it raised. *)
Definition echoes {E A : Type} (verbose : bool) (count : nat)
           (w : world E) (run : result A * world E) : Prop :=
  exists lines,
    stdout (snd run) = stdout w ++ lines
    /\ (verbose = false -> lines = [])
    /\ (verbose = true ->
        if returned (fst run) then length lines = count
        else length lines < count).


(** ** [main] and [process_command] of the earlier framework *)

Module ClizeMain.

Import ClizeFramework.

(** An argument that begins with the output option. *)
Definition is_outopt (arg : pyobj) : bool :=
  match str_text arg with
  | Some s => String.prefix outopt s
  | None => false
  end.

Section Main.

Variable E : Type.
Variable py_id : pyobj -> Z.
Variable py_repr : pyobj -> string.

(** The main CLI object, [clize.Clize.get_cli(cli_table, ..)]. *)
Variable CLI : string -> list pyobj -> E -> result pyobj * E.

(** [process_command(progname, command, *args, verbose=verbose)] *)
Definition process_command (progname command : string) (args : list pyobj)
           (verbose : bool) : M (world E) pyobj :=
  result <- call_dispatcher CLI progname (PyStr command :: args) ;;
  (if verbose then
     let rtype := type_of result in
     let output :=
       (fst rtype ++ "." ++ snd rtype ++ "@"
          ++ format_int (py_id result))%string in
     print (echo_line py_repr progname (PyStr command :: args) output)
   else ret tt) ;;;
  ret result.

(** [main(progname, command, *args, verbose=verbose,
    command_preprocessor=.., command_processor=..,
    command_postprocessor=..)]; a hook left at [None] is replaced by the
    function of this file. *)
Definition main (progname command : string) (args : list pyobj)
           (verbose : bool)
           (command_preprocessor :
              option (string -> string -> list pyobj ->
                      M (world E) (string * list pyobj * list pyobj)))
           (command_processor :
              option (string -> string -> list pyobj -> bool ->
                      M (world E) pyobj))
           (command_postprocessor :
              option (string -> pyobj -> list pyobj -> M (world E) pyobj))
  : M (world E) pyobj :=
  let command_preprocessor :=
    match command_preprocessor with
    | Some hook => hook
    | None => fun p c a => ret (preprocess_command p c a)
    end in
  let command_processor :=
    match command_processor with
    | Some hook => hook
    | None => process_command
    end in
  let command_postprocessor :=
    match command_postprocessor with
    | Some hook => hook
    | None => fun p r post_args => ret (postprocess_command p r post_args)
    end in
  prepared <- command_preprocessor progname command args ;;
  let '(command, args, post_args) := prepared in
  result <- command_processor progname command args verbose ;;
  command_postprocessor progname result post_args.

End Main.

End ClizeMain.

(** ** The help command of the earlier framework *)

Module ClizeHelp.

Import ClizeFramework ClizeMain.

(** The character [c] occurs in [s]. *)
Fixpoint occurs (c : ascii) (s : string) : bool :=
  match s with
  | EmptyString => false
  | String c' rest => Ascii.eqb c' c || occurs c rest
  end.

(** [filter(None, [command, '--help', usage and '--usage'])]: the command
    when it is given and not empty, [--help], and [--usage] when [usage]
    is set. *)
Definition help_args (command : option string) (usage : bool)
  : list string :=
  match command with
  | Some c => if c =? "" then [] else [c]
  | None => []
  end
  ++ ["--help"]
  ++ (if usage then ["--usage"] else []).

Section Help.

Variable E : Type.
Variable py_id : pyobj -> Z.
Variable py_repr : pyobj -> string.
Variable CLI : string -> list pyobj -> E -> result pyobj * E.

(** [improver_help(progname, command, usage=usage)]; the call
    [process_command(progname, *args)] takes the first of [args] as its
    command. *)
Definition improver_help (progname : string) (command : option string)
           (usage : bool) : M (world E) pyobj :=
  let progname := fst (fst (partition " "%char progname)) in
  match help_args command usage with
  | first :: others =>
      process_command py_id py_repr CLI progname first (map PyStr others)
                      false
  | [] => raise (OtherError "TypeError" "missing argument: 'command'")
  end.

End Help.

End ClizeHelp.

(** * Properties *)

(** ** The bracket parser *)

Section BracketFacts.

Import Bracket.

Lemma rebracket_all_snoc (nodes : list pyobj) (node : pyobj) :
  rebracket_all (nodes ++ [node]) = rebracket_all nodes ++ rebracket node.
Proof.
  unfold rebracket_all. rewrite flat_map_app. simpl.
  now rewrite app_nil_r.
Qed.

Lemma flatten_all_snoc (nodes : list pyobj) (node : pyobj) :
  flatten_all (nodes ++ [node]) = flatten_all nodes ++ flatten node.
Proof.
  unfold flatten_all. rewrite flat_map_app. simpl.
  now rewrite app_nil_r.
Qed.

Ltac assoc_lists :=
  unfold rebracket_all, flatten_all;
  repeat (rewrite <- app_assoc; simpl); simpl;
  rewrite ?app_nil_r; reflexivity.

Lemma token_cases (tok : string) : token_kind tok.
Proof.
  destruct (tok =? "[") eqn:Ho.
  - apply IsOpen. now apply String.eqb_eq.
  - destruct (tok =? "]") eqn:Hc.
    + apply IsClose; [now apply String.eqb_eq | assumption].
    + now apply IsLeaf.
Qed.

(** The parser keeps as many open frames as the depth counter says, and
    stops exactly where the counter does. *)
Lemma scan_follows_depth (args : list string) :
  forall i stack outargs,
    match depth_after (length stack) args with
    | Some d =>
        exists stack' outargs',
          scan args i stack outargs = OK (stack', outargs')
          /\ length stack' = d
    | None => exists e, scan args i stack outargs = Error e
    end.
Proof.
  induction args as [| tok rest IH]; intros i stack outargs; simpl.
  - now exists stack, outargs.
  - destruct (token_cases tok) as [-> | -> _ | Ho Hc]; simpl.
    + apply (IH (S i) (outargs :: stack) []).
    + destruct stack as [| top below]; simpl.
      * now eexists.
      * apply IH.
    + rewrite Ho, Hc. apply IH.
Qed.

(** Reading the state back as tokens: a step of the parser consumes the
    token it writes. *)
Lemma scan_tokens (args : list string) :
  forall i stack outargs stack' outargs',
    scan args i stack outargs = OK (stack', outargs') ->
    frames_tokens stack' ++ rebracket_all outargs'
    = (frames_tokens stack ++ rebracket_all outargs) ++ args.
Proof.
  induction args as [| tok rest IH];
    intros i stack outargs stack' outargs' H; simpl in H.
  - injection H as <- <-. now rewrite app_nil_r.
  - destruct (token_cases tok) as [-> | -> _ | Ho Hc]; simpl in H.
    + apply IH in H. rewrite H. assoc_lists.
    + destruct stack as [| top below]; [discriminate |].
      apply IH in H. rewrite H, rebracket_all_snoc. assoc_lists.
    + rewrite Ho, Hc in H. apply IH in H.
      rewrite H, rebracket_all_snoc. assoc_lists.
Qed.

(** The same for the leaves alone. *)
Lemma scan_leaves (args : list string) :
  forall i stack outargs stack' outargs',
    scan args i stack outargs = OK (stack', outargs') ->
    frames_leaves stack' ++ flatten_all outargs'
    = (frames_leaves stack ++ flatten_all outargs)
        ++ filter (fun tok => negb (is_bracket tok)) args.
Proof.
  induction args as [| tok rest IH];
    intros i stack outargs stack' outargs' H; simpl in H.
  - injection H as <- <-. simpl. now rewrite app_nil_r.
  - unfold is_bracket at 1. simpl filter.
    destruct (token_cases tok) as [-> | -> _ | Ho Hc]; simpl in H |- *.
    + apply IH in H. rewrite H. assoc_lists.
    + destruct stack as [| top below]; [discriminate |].
      apply IH in H. rewrite H, flatten_all_snoc. assoc_lists.
    + rewrite Ho, Hc in H |- *. simpl. apply IH in H.
      rewrite H, flatten_all_snoc. assoc_lists.
Qed.

(** A [']'] met at depth zero stops the scan at its own index. *)
Lemma scan_underflow (pre post : list string) :
  forall i stack outargs,
    depth_after (length stack) pre = Some 0 ->
    scan (pre ++ "]" :: post) i stack outargs
    = Error (ValueError (mismatch_msg (i + length pre))).
Proof.
  induction pre as [| tok rest IH]; intros i stack outargs H; simpl in H.
  - destruct stack; [| discriminate]. simpl.
    now rewrite Nat.add_0_r.
  - simpl. replace (i + S (length rest)) with (S i + length rest) by lia.
    destruct (token_cases tok) as [-> | -> _ | Ho Hc]; simpl in H |- *.
    + now apply IH.
    + destruct stack as [| top below]; [discriminate |]. now apply IH.
    + rewrite Ho, Hc in H |- *. now apply IH.
Qed.

Lemma unbracket_balanced (tokens : list string) :
  balanced tokens = true ->
  exists nested, scan tokens 0 [] [] = OK ([], nested)
                 /\ unbracket tokens = OK nested.
Proof.
  unfold balanced, unbracket. intros H.
  pose proof (scan_follows_depth tokens 0 [] []) as S. simpl in S.
  destruct (depth_after 0 tokens) as [[| d] |]; try discriminate.
  destruct S as (stack' & outargs' & -> & Hlen).
  destruct stack'; [| discriminate]. now exists outargs'.
Qed.

(** C1.  For a balanced token list, [unbracket] returns a nested list
    whose leaves, read left to right, are the tokens without the
    brackets, in their order; and writing a bracket pair around every
    nested list on the way gives back the token list itself. *)
Theorem unbracket_flatten_roundtrip (tokens : list string) :
  balanced tokens = true ->
  exists nested,
    unbracket tokens = OK nested
    /\ flatten_all nested
       = filter (fun tok => negb (is_bracket tok)) tokens
    /\ rebracket_all nested = tokens.
Proof.
  intros H. destruct (unbracket_balanced tokens H) as (nested & Hs & Hu).
  exists nested. split; [assumption |]. split.
  - now apply scan_leaves in Hs.
  - now apply scan_tokens in Hs.
Qed.

(** C2.  A [']'] that closes nothing raises the mismatch error at its
    own position, an input that ends with a bracket still open raises
    it at the length of the input, the two inputs of the specification
    raise it at 1 and at 2, and a balanced input raises nothing. *)
Theorem unbracket_mismatch (pre post tokens : list string) :
  (balanced pre = true ->
   unbracket (pre ++ "]" :: post)
   = Error (ValueError (mismatch_msg (length pre))))
  /\ ((exists d, depth_after 0 tokens = Some (S d)) ->
      unbracket tokens
      = Error (ValueError (mismatch_msg (length tokens))))
  /\ unbracket ["a"; "]"]
     = Error (ValueError "Mismatched bracket at position 1.")
  /\ unbracket ["a"; "["]
     = Error (ValueError "Mismatched bracket at position 2.")
  /\ (balanced tokens = true -> exists nested, unbracket tokens = OK nested).
Proof.
  repeat split.
  - unfold balanced. intros H.
    destruct (depth_after 0 pre) as [[| d] |] eqn:Hd; try discriminate.
    unfold unbracket.
    now rewrite (scan_underflow pre post 0 [] [] Hd).
  - intros [d Hd]. unfold unbracket.
    pose proof (scan_follows_depth tokens 0 [] []) as S. simpl in S.
    rewrite Hd in S. destruct S as (stack' & outargs' & -> & Hlen).
    destruct stack'; [discriminate | reflexivity].
  - intros H. destruct (unbracket_balanced tokens H) as (nested & _ & Hu).
    now exists nested.
Qed.

End BracketFacts.


(** ** The carrier, the coercion adapter and the output wrapper *)

Section CarrierFacts.

Variable E : Type.
Variable py_hash : pyobj -> option Z.
Variable py_id : pyobj -> Z.
Variable py_truth : pyobj -> bool.

(** The constructor returns, and what it returns is a carrier. *)
Lemma ObjectAsStr_returns (obj : pyobj) (name : option string)
      (w : world E) :
  exists c w',
    ObjectAsStr py_hash py_id obj name w = (OK c, w') /\ is_carrier c = true.
Proof.
  unfold ObjectAsStr. destruct (is_carrier obj) eqn:Hc.
  - now exists obj, w.
  - unfold new_carrier. now eexists _, _.
Qed.

(** A carrier goes through the constructor as it is and allocates
    nothing. *)
Lemma ObjectAsStr_carrier (c : pyobj) (name : option string)
      (w : world E) :
  is_carrier c = true -> ObjectAsStr py_hash py_id c name w = (OK c, w).
Proof. unfold ObjectAsStr. now intros ->. Qed.

(** Any other object gets a new carrier at the next free address. *)
Lemma ObjectAsStr_fresh (obj : pyobj) (w : world E) :
  is_carrier obj = false ->
  ObjectAsStr py_hash py_id obj None w
  = (OK (PyCarrier (next_addr w) (object2name py_hash py_id obj) obj),
     World (ext w) (calls w) (stdout w) (saved w) (S (next_addr w))).
Proof. unfold ObjectAsStr. now intros ->. Qed.

(** Two wrappings of one object are two carriers: identity is not
    equality of contents. *)
Lemma ObjectAsStr_twice_distinct (obj c1 c2 : pyobj) (w w1 w2 : world E) :
  is_carrier obj = false ->
  ObjectAsStr py_hash py_id obj None w = (OK c1, w1) ->
  ObjectAsStr py_hash py_id obj None w1 = (OK c2, w2) ->
  c1 <> c2.
Proof.
  intros Hc H1 H2. rewrite ObjectAsStr_fresh in H1, H2 by assumption.
  injection H1 as <- <-. injection H2 as <-. simpl.
  intros Heq. injection Heq as Heq. lia.
Qed.

(** C3, as the code has it.  Whatever [x] is, [ObjectAsStr(x)] is a
    carrier [c], and [ObjectAsStr(c)] is [c] itself, at the same
    address, with nothing allocated.  The wrapped object of [c] is [x]
    when [x] is not a carrier; when [x] is one, [c] is [x] and keeps the
    object [x] wraps.  No carrier that holds a carrier comes out. *)
Theorem ObjectAsStr_idempotent (x : pyobj) (name name' : option string)
        (w : world E) :
  exists c w1,
    ObjectAsStr py_hash py_id x name w = (OK c, w1)
    /\ ObjectAsStr py_hash py_id c name' w1 = (OK c, w1)
    /\ is_carrier c = true
    /\ (is_carrier x = false -> original_object c = Some x)
    /\ (is_carrier x = true ->
        c = x /\ w1 = w /\ original_object c = original_object x)
    /\ (single_indirection x -> single_indirection c).
Proof.
  destruct (ObjectAsStr_returns x name w) as (c & w1 & Hw & Hc).
  exists c, w1. split; [assumption |].
  split; [now apply ObjectAsStr_carrier |].
  split; [assumption |].
  unfold ObjectAsStr in Hw. destruct (is_carrier x) eqn:Hx.
  - injection Hw as <- <-. repeat split; try discriminate; auto.
  - unfold new_carrier in Hw. injection Hw as <- <-.
    repeat split; try discriminate; auto.
Qed.

(** C6, as the code has it.  The adapter looks at the object behind a
    carrier, or at the value itself when it is no carrier: when that is
    a string the converter is applied to it, otherwise it is returned
    as it is and the converter plays no part. *)
Theorem maybe_coerce_with_cases (convert : pyobj -> M (world E) pyobj)
        (obj o : pyobj) (a : nat) (n s : string) :
  maybe_coerce_with convert (PyStr s) = convert (PyStr s)
  /\ (is_str o = false ->
      maybe_coerce_with convert (PyCarrier a n o) = ret o)
  /\ (is_str o = true ->
      maybe_coerce_with convert (PyCarrier a n o) = convert o)
  /\ (is_str obj = false -> maybe_coerce_with convert obj = ret obj).
Proof.
  unfold maybe_coerce_with. simpl. repeat split.
  - now intros ->.
  - now intros ->.
  - intros H. destruct obj; try discriminate; reflexivity.
Qed.

(** X19.  Wrapping then coercing is the identity on results that are
    not strings: the carrier the evaluator makes for such a result gives
    the result back through the adapter, and the converter is never
    applied. *)
Lemma maybe_coerce_with_resolved
      (convert : pyobj -> M (world E) pyobj) (r c : pyobj)
      (w w' : world E) :
  is_str r = false ->
  ObjectAsStr py_hash py_id r None w = (OK c, w') ->
  maybe_coerce_with convert c = ret r.
Proof.
  intros Hr H. rewrite ObjectAsStr_fresh in H
    by (destruct r; try discriminate; reflexivity).
  injection H as <- _. unfold maybe_coerce_with. simpl. now rewrite Hr.
Qed.

(** C7.  After the wrapped invocation returned [r]: with a destination
    the result is written there, once, and [None] is returned; without
    one ([None], the default, or the empty text) [r] is returned and
    nothing is written. *)
Theorem with_output_contract (wrapped : M (world E) pyobj) (r : pyobj)
        (w w1 : world E) (path : string) :
  wrapped w = (OK r, w1) ->
  (path <> "" ->
   with_output py_truth wrapped (PyStr path) w
   = (OK PyNone,
      World (ext w1) (calls w1) (stdout w1)
            (saved w1 ++ [(r, PyStr path)]) (next_addr w1)))
  /\ with_output py_truth wrapped PyNone w = (OK r, w1)
  /\ with_output py_truth wrapped (PyStr "") w = (OK r, w1).
Proof.
  intros H. unfold with_output, bind. rewrite H. simpl.
  repeat split. intros Hp.
  apply String.eqb_neq in Hp. now rewrite Hp.
Qed.

(** An exception of the wrapped invocation goes through, and nothing is
    written. *)
Lemma with_output_raises (wrapped : M (world E) pyobj) (e : exn)
      (output : pyobj) (w w1 : world E) :
  wrapped w = (Error e, w1) ->
  with_output py_truth wrapped output w = (Error e, w1).
Proof. intros H. unfold with_output, bind. now rewrite H. Qed.

End CarrierFacts.

(** ** The evaluator *)

Section EvaluatorFacts.

Variable E : Type.
Variable py_hash : pyobj -> option Z.
Variable py_id : pyobj -> Z.
Variable py_repr : pyobj -> string.
Variable dispatcher : string -> list pyobj -> E -> result pyobj * E.
Variable progname : string.
Variable verbose : bool.

(** The top level is the nested case on the whole argument list. *)
Lemma execute_command_nested (dry_run : bool) (args : list pyobj) :
  execute_command py_hash py_id py_repr dispatcher progname verbose dry_run
                  args
  = execute_nested py_hash py_id py_repr dispatcher progname verbose dry_run
                   (PySeq SeqList args).
Proof. reflexivity. Qed.

(** What the loop leaves in [args]: strings only, and a string that was
    there, plain or carrier, is the very same object afterwards. *)
Lemma resolve_args_strings (nested : pyobj -> M (world E) pyobj)
      (args : list pyobj) :
  forall (w : world E) args' w',
    resolve_args py_hash py_id nested args w = (OK args', w') ->
    forallb is_str args' = true
    /\ Forall2 (fun arg arg' => is_str arg = true -> arg' = arg) args args'.
Proof.
  induction args as [| arg rest IH]; intros w args' w' H; simpl in H.
  - injection H as <- <-. split; constructor.
  - unfold bind at 1 in H.
    destruct (resolve_arg py_hash py_id nested arg w) as [[a | e] w1] eqn:Ha;
      [| discriminate].
    unfold bind at 1 in H.
    destruct (resolve_args py_hash py_id nested rest w1)
      as [[rest' | e] w2] eqn:Hr; [| discriminate].
    injection H as <- <-. destruct (IH _ _ _ Hr) as [Hs Hk].
    assert (is_str a = true /\ (is_str arg = true -> a = arg)) as [Ha1 Ha2].
    { unfold resolve_arg, bind in Ha.
      destruct (is_seq arg) eqn:Hseq.
      - destruct (nested arg w) as [[b | e] w0]; [| discriminate].
        split; [| destruct arg; discriminate].
        destruct (is_str b) eqn:Hb; [now injection Ha as <- _ |].
        destruct (ObjectAsStr_returns py_hash py_id b None w0)
          as (c & w3 & Hc & Hcar).
        rewrite Hc in Ha. injection Ha as <- _.
        destruct c; try discriminate; reflexivity.
      - unfold ret in Ha. destruct (is_str arg) eqn:Hb.
        + injection Ha as <- _. now split.
        + split; [| discriminate].
          destruct (ObjectAsStr_returns py_hash py_id arg None w)
            as (c & w3 & Hc & Hcar).
          rewrite Hc in Ha. injection Ha as <- _.
          destruct c; try discriminate; reflexivity. }
    split.
    + simpl. now rewrite Ha1.
    + now constructor.
Qed.

(** *** Relations between the states before and after that every step
        keeps *)

Section Preservation.

Variable dry_run : bool.
Variable R : world E -> world E -> Prop.

Hypothesis R_refl : forall w, R w w.
Hypothesis R_trans : forall w1 w2 w3, R w1 w2 -> R w2 w3 -> R w1 w3.
Hypothesis R_alloc :
  forall w, R w (World (ext w) (calls w) (stdout w) (saved w)
                       (S (next_addr w))).
Hypothesis R_print :
  forall w line, R w (World (ext w) (calls w) (stdout w ++ [line])
                            (saved w) (next_addr w)).
Hypothesis R_call :
  dry_run = false ->
  forall w args,
    forallb is_str args = true ->
    R w (snd (call_dispatcher dispatcher progname args w)).

Lemma ObjectAsStr_preserves (obj : pyobj) (name : option string)
      (w : world E) :
  R w (snd (ObjectAsStr py_hash py_id obj name w)).
Proof.
  unfold ObjectAsStr. destruct (is_carrier obj); simpl; auto.
Qed.

Lemma resolve_args_preserves (nested : pyobj -> M (world E) pyobj)
      (args : list pyobj) :
  Forall (fun arg => forall w, R w (snd (nested arg w))) args ->
  forall w, R w (snd (resolve_args py_hash py_id nested args w)).
Proof.
  induction 1 as [| arg rest Harg _ IH]; intros w; simpl; [apply R_refl |].
  unfold bind at 1.
  destruct (resolve_arg py_hash py_id nested arg w) as [[a | e] w1] eqn:Ha.
  - assert (R w w1) as Hw1.
    { unfold resolve_arg, bind in Ha.
      destruct (is_seq arg).
      - specialize (Harg w).
        destruct (nested arg w) as [[b | e] w0]; [| discriminate].
        simpl in Harg. destruct (is_str b).
        + now injection Ha as _ <-.
        + apply R_trans with w0; [assumption |].
          pose proof (ObjectAsStr_preserves b None w0) as Hp.
          now rewrite Ha in Hp.
      - unfold ret in Ha. destruct (is_str arg).
        + injection Ha as _ <-. apply R_refl.
        + pose proof (ObjectAsStr_preserves arg None w) as Hp.
          now rewrite Ha in Hp. }
    unfold bind. specialize (IH w1).
    destruct (resolve_args py_hash py_id nested rest w1) as [[rest' | e] w2];
      simpl in IH |- *; now apply R_trans with w1.
  - simpl. unfold resolve_arg, bind in Ha.
    destruct (is_seq arg).
    + specialize (Harg w).
      destruct (nested arg w) as [[b | e0] w0]; simpl in Harg.
      * destruct (is_str b); [discriminate |].
        apply R_trans with w0; [assumption |].
        pose proof (ObjectAsStr_preserves b None w0) as Hp.
        now rewrite Ha in Hp.
      * now injection Ha as _ <-.
    + unfold ret in Ha. destruct (is_str arg); [discriminate |].
      pose proof (ObjectAsStr_preserves arg None w) as Hp.
      now rewrite Ha in Hp.
Qed.

Lemma run_resolved_preserves (args : list pyobj) (w : world E) :
  forallb is_str args = true ->
  R w (snd (run_resolved py_hash py_id py_repr dispatcher progname verbose
                         dry_run args w)).
Proof.
  intros Hs. unfold run_resolved, bind.
  destruct dry_run eqn:Hd.
  - unfold ret. rewrite orb_true_r. simpl. apply R_print.
  - pose proof (R_call eq_refl w _ Hs) as Hc.
    destruct (call_dispatcher dispatcher progname args w) as [[r | e] w1];
      simpl in Hc |- *; [| assumption].
    rewrite orb_false_r. destruct verbose; simpl; [| assumption].
    apply R_trans with w1; [assumption | apply R_print].
Qed.

Lemma execute_nested_preserves (arg : pyobj) :
  forall w,
    R w (snd (execute_nested py_hash py_id py_repr dispatcher progname
                             verbose dry_run arg w)).
Proof.
  induction arg as [| s | k items IH | m n i | a n o _] using pyobj_nested_ind;
    intros w; simpl; try apply R_refl.
  unfold bind.
  pose proof (resolve_args_preserves _ IH w) as Hr.
  destruct (resolve_args py_hash py_id
              (execute_nested py_hash py_id py_repr dispatcher progname
                              verbose dry_run) items w)
    as [[args | e] w1] eqn:Hargs; simpl in Hr |- *; [| assumption].
  apply R_trans with w1; [assumption |].
  apply run_resolved_preserves.
  now apply resolve_args_strings in Hargs.
Qed.

Lemma execute_command_preserves (args : list pyobj) (w : world E) :
  R w (snd (execute_command py_hash py_id py_repr dispatcher progname
                            verbose dry_run args w)).
Proof.
  apply (execute_nested_preserves (PySeq SeqList args)).
Qed.

End Preservation.

(** C9.  Whatever the mode and the outcome, every call the dispatcher
    gets from [execute_command] has strings only as arguments; and the
    loop that prepares them leaves strings only and keeps a string it
    finds, plain or carrier, as the same object. *)
Theorem dispatcher_receives_strings (dry_run : bool) (args : list pyobj)
        (w : world E) :
  (exists made,
      calls (snd (execute_command py_hash py_id py_repr dispatcher progname
                                  verbose dry_run args w))
      = calls w ++ made
      /\ Forall (fun c => all_strings c = true) made)
  /\ (forall nested args' w',
         resolve_args py_hash py_id nested args w = (OK args', w') ->
         forallb is_str args' = true
         /\ Forall2 (fun arg arg' => is_str arg = true -> arg' = arg)
                    args args').
Proof.
  split; [| intros nested args' w'; apply resolve_args_strings].
  apply (execute_command_preserves
           (dry_run := dry_run)
           (fun w1 w2 => exists made,
                calls w2 = calls w1 ++ made
                /\ Forall (fun c => all_strings c = true) made)).
  - intros w1. exists []. now rewrite app_nil_r.
  - intros w1 w2 w3 (m1 & H1 & F1) (m2 & H2 & F2). exists (m1 ++ m2).
    rewrite H2, H1, app_assoc. split; [reflexivity |].
    apply Forall_app. now split.
  - intros w1. exists []. simpl. now rewrite app_nil_r.
  - intros w1 line. exists []. simpl. now rewrite app_nil_r.
  - intros _ w1 args1 Hs. unfold call_dispatcher.
    destruct (dispatcher progname args1 (ext w1)) as [r e]. simpl.
    exists [Call progname args1]. split; [reflexivity |].
    constructor; [exact Hs | constructor].
Qed.

(** *** Dry run *)

Section DryRun.







End DryRun.

(** *** Order of the dispatcher calls *)

Section Order.

Lemma follows_nil (complete : bool) : follows progname [] complete [].
Proof. exists [], []. repeat split. constructor. Qed.

Lemma follows_single (slots : list (option string)) (c : call)
      (complete : bool) :
  fits_call progname slots c -> follows progname [slots] complete [c].
Proof.
  intros H. exists [slots], []. repeat split.
  constructor; [exact H | constructor].
Qed.

Lemma follows_app (first second : list (list (option string)))
      (complete : bool) (made1 made2 : list call) :
  follows progname first true made1 ->
  follows progname second complete made2 ->
  follows progname (first ++ second) complete (made1 ++ made2).
Proof.
  intros (d1 & r1 & -> & F1 & C1) (d2 & r2 & -> & F2 & C2).
  rewrite (C1 eq_refl), app_nil_r.
  exists (d1 ++ d2), r2. rewrite app_assoc. repeat split; [| exact C2].
  now apply Forall2_app.
Qed.

Lemma follows_stop (first second : list (list (option string)))
      (complete : bool) (made : list call) :
  follows progname first complete made ->
  follows progname (first ++ second) false made.
Proof.
  intros (d & r & -> & F & _). exists d, (r ++ second).
  rewrite app_assoc. repeat split; [assumption | discriminate].
Qed.

(** The arguments left by the loop fit the places of the line. *)
Lemma resolved_fit_slots (args args' : list pyobj) :
  forallb is_str args' = true ->
  Forall2 (fun arg arg' => is_str arg = true -> arg' = arg) args args' ->
  Forall2 fits_slot (map leaf_text args) args'.
Proof.
  intros Hs H. induction H as [| arg arg' rest rest' Hk _ IH]; simpl in *.
  - constructor.
  - apply andb_prop in Hs as [Ha Hr]. constructor; [| now apply IH].
    destruct arg; simpl; try exact Ha. now apply Hk.
Qed.

(** One turn of the loop makes the calls of the nested line it resolves,
    and no other. *)
Lemma resolve_arg_calls (nested : pyobj -> M (world E) pyobj)
      (arg : pyobj) (w : world E) :
  let run := resolve_arg py_hash py_id nested arg w in
  if is_seq arg then
    calls (snd run) = calls (snd (nested arg w))
    /\ returned (fst run) = returned (fst (nested arg w))
  else calls (snd run) = calls w /\ returned (fst run) = true.
Proof.
  unfold resolve_arg, bind. destruct (is_seq arg) eqn:Hseq.
  - destruct (nested arg w) as [[b | e] w0]; simpl; [| now split].
    destruct (is_str b); [now split |].
    unfold ObjectAsStr. destruct (is_carrier b); now split.
  - unfold ret. destruct (is_str arg); [now split |].
    unfold ObjectAsStr. destruct (is_carrier arg); now split.
Qed.

Lemma resolve_args_order (nested : pyobj -> M (world E) pyobj)
      (items : list pyobj) :
  Forall (fun arg =>
            forall w, exists made,
              calls (snd (nested arg w)) = calls w ++ made
              /\ follows progname (expected_calls arg)
                         (returned (fst (nested arg w))) made) items ->
  forall w, exists made,
    calls (snd (resolve_args py_hash py_id nested items w))
    = calls w ++ made
    /\ follows progname (flat_map expected_calls items)
               (returned (fst (resolve_args py_hash py_id nested items w)))
               made.
Proof.
  induction 1 as [| arg rest Harg _ IH]; intros w; simpl.
  - exists []. rewrite app_nil_r. split; [reflexivity | apply follows_nil].
  - pose proof (resolve_arg_calls nested arg w) as Hc. simpl in Hc.
    assert (exists made1,
               calls (snd (resolve_arg py_hash py_id nested arg w))
               = calls w ++ made1
               /\ follows progname (expected_calls arg)
                          (returned
                             (fst (resolve_arg py_hash py_id nested arg w)))
                          made1) as (made1 & Hm1 & Hf1).
    { destruct (is_seq arg) eqn:Hseq.
      - destruct Hc as [-> ->]. apply Harg.
      - destruct Hc as [-> ->]. exists []. rewrite app_nil_r.
        split; [reflexivity |].
        destruct arg; try discriminate; apply follows_nil. }
    unfold bind.
    destruct (resolve_arg py_hash py_id nested arg w) as [[a | e] w1];
      simpl in Hm1, Hf1 |- *.
    + destruct (IH w1) as (made2 & Hm2 & Hf2).
      exists (made1 ++ made2).
      destruct (resolve_args py_hash py_id nested rest w1)
        as [[rest' | e] w2]; simpl in Hm2, Hf2 |- *;
        (split; [now rewrite Hm2, Hm1, app_assoc | now apply follows_app]).
    + exists made1. split; [assumption |]. now apply follows_stop with false.
Qed.

Lemma execute_nested_order (arg : pyobj) :
  forall w, exists made,
    calls (snd (execute_nested py_hash py_id py_repr dispatcher progname
                               verbose false arg w))
    = calls w ++ made
    /\ follows progname (expected_calls arg)
               (returned
                  (fst (execute_nested py_hash py_id py_repr dispatcher
                                       progname verbose false arg w)))
               made.
Proof.
  induction arg as [| s | k items IH | m n i | a n o _] using pyobj_nested_ind;
    intros w; simpl;
    try (exists []; rewrite app_nil_r; split;
         [reflexivity | apply follows_nil]).
  destruct (resolve_args_order _ IH w) as (made & Hm & Hf).
  unfold bind at 1 2.
  destruct (resolve_args py_hash py_id
              (execute_nested py_hash py_id py_repr dispatcher progname
                              verbose false) items w)
    as [[args | e] w1] eqn:Hr; simpl in Hm, Hf |- *.
  - destruct (resolve_args_strings _ _ _ Hr) as [Hs Hk].
    exists (made ++ [Call progname args]).
    assert (fits_call progname (map leaf_text items) (Call progname args))
      as Hfit by (split; [reflexivity | now apply resolved_fit_slots]).
    unfold run_resolved, bind, call_dispatcher.
    destruct (dispatcher progname args (ext w1)) as [[r | e] e1]; simpl.
    + rewrite orb_false_r. unfold print, ret.
      destruct verbose; simpl;
        (split; [now rewrite Hm, app_assoc |]);
        apply follows_app; auto using follows_single.
    + split; [now rewrite Hm, app_assoc |].
      apply follows_app; auto using follows_single.
  - exists made. split; [assumption |]. now apply follows_stop with false.
Qed.

Lemma expected_calls_length (arg : pyobj) :
  length (expected_calls arg) = invocations arg.
Proof.
  induction arg as [| s | k items IH | m n i | a n o _] using pyobj_nested_ind;
    simpl; try reflexivity.
  rewrite length_app. simpl. rewrite Nat.add_1_r. f_equal.
  induction IH as [| x rest Hx _ IHrest]; simpl; [reflexivity |].
  rewrite length_app. now rewrite Hx, IHrest.
Qed.

(** A live invocation is one call of the dispatcher, on the resolved
    arguments, in the state reached. *)
Lemma run_resolved_live (args : list pyobj) (w : world E) :
  let run := run_resolved py_hash py_id py_repr dispatcher progname verbose
                          false args w in
  let out := dispatcher progname args (ext w) in
  fst run = fst out
  /\ ext (snd run) = snd out
  /\ calls (snd run) = calls w ++ [Call progname args]
  /\ next_addr (snd run) = next_addr w.
Proof.
  unfold run_resolved, bind, call_dispatcher, print, ret.
  destruct (dispatcher progname args (ext w)) as [[r | e] e']; simpl.
  - rewrite orb_false_r. destruct verbose; now repeat split.
  - now repeat split.
Qed.

(** [cmd_outer [ cmd_inner a b ] c], step by step. *)
Lemma main_nested_line (w : world E) :
  main py_hash py_id py_repr dispatcher progname "cmd_outer"
       ["["; "cmd_inner"; "a"; "b"; "]"; "c"] verbose false w
  = match run_resolved py_hash py_id py_repr dispatcher progname verbose
                       false [PyStr "cmd_inner"; PyStr "a"; PyStr "b"] w with
    | (OK b, w1) =>
        match (if is_str b then ret b
               else ObjectAsStr py_hash py_id b None) w1 with
        | (OK a, w2) =>
            run_resolved py_hash py_id py_repr dispatcher progname verbose
                         false [PyStr "cmd_outer"; a; PyStr "c"] w2
        | (Error e, w2) => (Error e, w2)
        end
    | (Error e, w1) => (Error e, w1)
    end.
Proof.
  unfold main, execute_command.
  change (Bracket.unbracket ["["; "cmd_inner"; "a"; "b"; "]"; "c"])
    with (OK [PySeq SeqList [PyStr "cmd_inner"; PyStr "a"; PyStr "b"];
              PyStr "c"]).
  cbv iota beta. cbn [resolve_args]. unfold resolve_arg.
  cbn [is_seq is_str execute_nested resolve_args]. unfold resolve_arg.
  generalize (run_resolved py_hash py_id py_repr dispatcher progname verbose
                           false).
  intros live. unfold bind, ret. simpl.
  destruct (live [PyStr "cmd_inner"; PyStr "a"; PyStr "b"] w)
    as [[b | e] w1]; [| reflexivity].
  destruct (is_str b); [reflexivity |].
  destruct (ObjectAsStr py_hash py_id b None w1) as [[a | e] w2];
    reflexivity.
Qed.

(** C4, as the code has it.  The dispatcher calls of a run are those of
    the command line, innermost first, siblings left to right, the
    enclosing invocation after the ones nested in it: all of them, once
    each, when the run returns, and an initial part of them when a call
    raises.  On [cmd_outer [ cmd_inner a b ] c], [cmd_inner a b] runs
    once, then [cmd_outer] runs on the inner result and [c], the result
    being inside a new carrier unless it is a string, which is passed as
    it is. *)
Theorem execute_command_order (args : list pyobj) (w : world E)
        (r1 : pyobj) (e1 : E) :
  (exists made,
      let run := execute_command py_hash py_id py_repr dispatcher progname
                                 verbose false args w in
      calls (snd run) = calls w ++ made
      /\ follows progname (expected_calls_of args) (returned (fst run)) made
      /\ (returned (fst run) = true ->
          length made = invocations (PySeq SeqList args)))
  /\ (dispatcher progname [PyStr "cmd_inner"; PyStr "a"; PyStr "b"] (ext w)
      = (OK r1, e1) ->
      let arg1 :=
        if is_str r1 then r1
        else PyCarrier (next_addr w) (object2name py_hash py_id r1) r1 in
      let run := main py_hash py_id py_repr dispatcher progname "cmd_outer"
                      ["["; "cmd_inner"; "a"; "b"; "]"; "c"] verbose false
                      w in
      calls (snd run)
      = calls w
          ++ [Call progname [PyStr "cmd_inner"; PyStr "a"; PyStr "b"];
              Call progname [PyStr "cmd_outer"; arg1; PyStr "c"]]
      /\ fst run
         = fst (dispatcher progname [PyStr "cmd_outer"; arg1; PyStr "c"]
                           e1)).
Proof.
  split.
  - destruct (execute_nested_order (PySeq SeqList args) w)
      as (made & Hm & Hf).
    exists made. cbv zeta. split; [exact Hm |]. split; [exact Hf |].
    intros Hret. change (execute_command py_hash py_id py_repr dispatcher
                           progname verbose false args w)
      with (execute_nested py_hash py_id py_repr dispatcher progname verbose
              false (PySeq SeqList args) w) in Hret.
    rewrite Hret in Hf. destruct Hf as (d & r & Hexp & Hfit & Hrest).
    rewrite (Hrest eq_refl), app_nil_r in Hexp.
    apply Forall2_length in Hfit. rewrite <- Hfit, <- Hexp.
    apply expected_calls_length.
  - intros Hinner. cbv zeta.
    pose proof (run_resolved_live
                  [PyStr "cmd_inner"; PyStr "a"; PyStr "b"] w) as Hlive.
    cbv zeta in Hlive. rewrite Hinner in Hlive.
    destruct Hlive as (Hf & He & Hc & Hn). simpl in Hf, He.
    rewrite (main_nested_line w).
    destruct (run_resolved py_hash py_id py_repr dispatcher progname verbose
                           false [PyStr "cmd_inner"; PyStr "a"; PyStr "b"] w)
      as [[b | e] w1]; simpl in Hf, He, Hc, Hn; [| discriminate].
    injection Hf as ->.
    assert (exists w2,
               (if is_str r1 then ret r1
                else ObjectAsStr py_hash py_id r1 None) w1
               = (OK (if is_str r1 then r1
                      else PyCarrier (next_addr w)
                                     (object2name py_hash py_id r1) r1), w2)
               /\ ext w2 = e1 /\ calls w2 = calls w1) as (w2 & -> & H2 & H3).
    { destruct (is_str r1) eqn:Hs.
      - exists w1. now repeat split.
      - rewrite ObjectAsStr_fresh
          by (destruct r1; try discriminate; reflexivity).
        rewrite Hn. eexists. now repeat split. }
    match goal with
    | |- context [run_resolved _ _ _ _ _ _ _ ?l w2] =>
        destruct (run_resolved_live l w2) as (Gf & _ & Gc & _)
    end.
    rewrite Gf, Gc, H2, H3, Hc, <- app_assoc. now split.
Qed.

End Order.

End EvaluatorFacts.

(** ** The output option of the earlier framework *)

Section ClizeFrameworkFacts.

Import ClizeFramework.

Lemma scan_output_skips (all_args pre rest : list pyobj) :
  Forall not_outopt pre ->
  forall i,
    scan_output all_args i (pre ++ rest)
    = scan_output all_args (i + length pre) rest.
Proof.
  induction 1 as [| arg pre' Harg _ IH]; intros i; simpl.
  - now rewrite Nat.add_0_r.
  - unfold not_outopt in Harg. rewrite IH.
    replace (S i + length pre') with (i + S (length pre')) by lia.
    destruct (str_text arg); [now rewrite Harg | reflexivity].
Qed.

(** X20.  With [--output=path] the destination is [path], whatever
    stands after the first [=] and whatever the later arguments are: the
    first argument that begins with [--output] decides. *)
Lemma destination_equals_form (pre rest : list pyobj) (path : string) :
  Forall not_outopt pre ->
  destination (pre ++ PyStr ("--output=" ++ path) :: rest)
  = Some (PyStr path).
Proof.
  intros H. unfold destination, preprocess_command.
  rewrite (scan_output_skips _ _ H). reflexivity.
Qed.

(** With [--output path] the destination is not the token after the
    option but the one after that, and the empty text when there is
    none. *)
Lemma destination_space_form (pre rest : list pyobj) :
  Forall not_outopt pre ->
  destination (pre ++ PyStr "--output" :: rest)
  = Some (nth 1 rest (PyStr "")).
Proof.
  intros H. unfold destination, preprocess_command.
  rewrite (scan_output_skips _ _ H).
  assert (item (pre ++ PyStr "--output" :: rest) (1 + length pre + 1)
          = nth_error rest 1) as Hitem.
  { unfold item. rewrite nth_error_app2 by lia.
    now replace (1 + length pre + 1 - length pre) with 2 by lia. }
  cbn [scan_output str_text]. change (String.prefix outopt "--output")
    with true. cbv iota.
  change (partition "="%char "--output") with ("--output", "", "").
  cbv iota beta. change ("" =? "") with true. cbv iota.
  rewrite Hitem. destruct rest as [| x [| y rest']]; reflexivity.
Qed.

(** C8 on the code.  [--output=out.nc] gives the destination [out.nc];
    [--output out.nc] gives the empty text, and with one more argument
    after the path it gives that argument. *)
Theorem preprocess_command_space_form_skips_path :
  destination [PyStr "--output=out.nc"] = Some (PyStr "out.nc")
  /\ destination [PyStr "--output"; PyStr "out.nc"] = Some (PyStr "")
  /\ destination [PyStr "--output"; PyStr "out.nc"; PyStr "in.nc"]
     = Some (PyStr "in.nc")
  /\ preprocess_command "improver" "combine"
                        [PyStr "--output"; PyStr "out.nc"]
     = ("combine", [PyStr "--output"; PyStr "out.nc"],
        [PyStr "--output"; PyStr ""]).
Proof. repeat split. Qed.

(** [postprocess_command] returns nothing when an output option came
    with the arguments, and the result otherwise. *)
Lemma postprocess_command_cases (progname : string) (result output : pyobj) :
  postprocess_command progname result [PyStr "--output"; output] = PyNone
  /\ postprocess_command progname result [] = result.
Proof. split; reflexivity. Qed.

End ClizeFrameworkFacts.

(** ** The velocity guard of [nowcast_extrapolate.process] *)

Section NowcastFacts.

Import NowcastExtrapolate.

Variables cube attrs E : Type.
Variable resolve_wind :
  option cube -> option cube -> E -> result (cube * cube) * E.
Variable extrapolate :
  option cube -> option cube -> option cube -> option cube ->
  option attrs -> Z -> Z -> E -> result (list cube) * E.
Variable merge_cube : list cube -> list cube -> E -> result cube * E.
Variable fraction_nonzero : Z -> Z -> result bool.

(** C10.  Unless speed and direction are both given with neither
    component, or both components with neither speed nor direction,
    [process] raises the [ValueError] about mixing them before anything
    else happens: no plugin has run and the state is as it was.  When one
    of the two holds the guard lets the call through: with the components
    they are used as given, with speed and direction the wind is
    resolved. *)
Theorem process_velocity_guard
        (input_cube u_cube v_cube speed_cube direction_cube
         orographic_enhancement_cube : option cube)
        (attributes_dict : option attrs)
        (max_lead_time lead_time_interval accumulation_fidelity : Z)
        (s : state E) :
  (one_velocity_specification u_cube v_cube speed_cube direction_cube
   = false ->
   process resolve_wind extrapolate merge_cube fraction_nonzero
            input_cube u_cube v_cube
           speed_cube direction_cube orographic_enhancement_cube
           attributes_dict max_lead_time lead_time_interval
           accumulation_fidelity s
   = (Error (ValueError mix_msg), s))
  /\ (one_velocity_specification u_cube v_cube speed_cube direction_cube
      = true ->
      velocities resolve_wind u_cube v_cube speed_cube direction_cube s
      = if given u_cube then (OK (u_cube, v_cube), s)
        else
          (uv <- plugin ResolvedWind
                        (resolve_wind speed_cube direction_cube) ;;
           ret (Some (fst uv), Some (snd uv))) s).
Proof.
  unfold one_velocity_specification, process, velocities.
  destruct u_cube, v_cube, speed_cube, direction_cube; simpl;
    split; intros H; try discriminate; reflexivity.
Qed.

End NowcastFacts.

(** ** The properties on concrete command lines *)

Section Instances.

Import Examples.

Example unbracket_docstring :
  Bracket.unbracket
    ["foo"; "["; "bar"; "a"; "b"; "]"; "["; "baz"; "c"; "]"; "-o"; "z"]
  = OK [PyStr "foo";
        PySeq SeqList [PyStr "bar"; PyStr "a"; PyStr "b"];
        PySeq SeqList [PyStr "baz"; PyStr "c"];
        PyStr "-o"; PyStr "z"].
Proof. reflexivity. Qed.

Example unbracket_spec_example :
  Bracket.unbracket ["a"; "["; "b"; "]"; "c"]
  = OK [PyStr "a"; PySeq SeqList [PyStr "b"]; PyStr "c"].
Proof. reflexivity. Qed.

Lemma unbracket_flatten_roundtrip_witness :
  Bracket.balanced ["a"; "["; "b"; "["; "]"; "]"; "c"] = true
  /\ exists nested,
      Bracket.unbracket ["a"; "["; "b"; "["; "]"; "]"; "c"] = OK nested
      /\ Bracket.flatten_all nested = ["a"; "b"; "c"]
      /\ Bracket.rebracket_all nested
         = ["a"; "["; "b"; "["; "]"; "]"; "c"].
Proof.
  split; [reflexivity |].
  apply (unbracket_flatten_roundtrip ["a"; "["; "b"; "["; "]"; "]"; "c"]).
  reflexivity.
Defined.

Lemma unbracket_mismatch_witness :
  Bracket.unbracket (["x"; "["; "y"; "]"] ++ "]" :: ["z"])
  = Error (ValueError "Mismatched bracket at position 4.")
  /\ Bracket.unbracket ["x"; "["; "["; "y"; "]"]
     = Error (ValueError "Mismatched bracket at position 5.")
  /\ exists nested, Bracket.unbracket ["x"; "["; "y"; "]"] = OK nested.
Proof.
  split; [| split].
  - apply (proj1 (unbracket_mismatch ["x"; "["; "y"; "]"] ["z"] [])).
    reflexivity.
  - apply (proj1 (proj2 (unbracket_mismatch [] []
                                            ["x"; "["; "["; "y"; "]"]))).
    exists 0. reflexivity.
  - apply (proj2 (proj2 (proj2 (proj2
             (unbracket_mismatch [] [] ["x"; "["; "y"; "]"]))))).
    reflexivity.
Defined.

Lemma ObjectAsStr_idempotent_witness :
  exists c w',
    ObjectAsStr hash id five None w0 = (OK c, w')
    /\ ObjectAsStr hash id c None w' = (OK c, w')
    /\ original_object c = Some five
    /\ single_indirection c.
Proof.
  destruct (ObjectAsStr_idempotent hash id five None None w0)
    as (c & w' & H1 & H2 & _ & H4 & _ & H6).
  exists c, w'. repeat split.
  - exact H1.
  - exact H2.
  - apply H4. reflexivity.
  - apply H6. exact I.
Defined.

(** Against C3 as stated: when [x] is itself a carrier, around [five],
    [ObjectAsStr(ObjectAsStr(x))] is [x], and the object it wraps is
    [five], not [x]. *)
Lemma ObjectAsStr_of_carrier_wraps_inner_object :
  ObjectAsStr hash id five None w0 = (OK five_carrier, w1)
  /\ (c <- ObjectAsStr hash id five_carrier None ;;
      ObjectAsStr hash id c None) w1
     = (OK five_carrier, w1)
  /\ original_object five_carrier = Some five
  /\ original_object five_carrier <> Some five_carrier.
Proof. repeat split. discriminate. Qed.

Lemma execute_command_order_witness :
  let run := main hash id repr cube_dispatcher "improver" "cmd_outer"
                  nested_tokens false false w0 in
  calls (snd run)
  = [Call "improver" [PyStr "cmd_inner"; PyStr "a"; PyStr "b"];
     Call "improver" [PyStr "cmd_outer";
                      PyCarrier 0 "<iris.cube.Cube@42>" cube;
                      PyStr "c"]]
  /\ fst run = OK cube.
Proof.
  apply (proj2 (execute_command_order hash id repr cube_dispatcher
                                      "improver" false [] w0 cube tt)).
  reflexivity.
Defined.

(** Against C4 as stated: when [cmd_inner] returns text, [cmd_outer] gets
    that text as its first argument, a plain string and no carrier. *)
Lemma execute_command_passes_text_unwrapped :
  calls (snd (main hash id repr text_dispatcher "improver" "cmd_outer"
                   nested_tokens false false w0))
  = [Call "improver" [PyStr "cmd_inner"; PyStr "a"; PyStr "b"];
     Call "improver" [PyStr "cmd_outer"; PyStr "usage"; PyStr "c"]]
  /\ is_carrier (PyStr "usage") = false.
Proof. split; reflexivity. Qed.


Lemma maybe_coerce_with_cases_witness :
  maybe_coerce_with failing_convert five_carrier = ret five
  /\ maybe_coerce_with failing_convert path_carrier
     = failing_convert (PyStr "a.nc")
  /\ maybe_coerce_with failing_convert cube = ret cube.
Proof.
  pose proof (maybe_coerce_with_cases failing_convert cube five 0
                                      "<builtins.int@5>" "a.nc")
    as (_ & H2 & _ & H4).
  pose proof (maybe_coerce_with_cases failing_convert cube (PyStr "a.nc") 0
                                      "<builtins.str@4>" "a.nc")
    as (_ & _ & H3 & _).
  split; [| split].
  - apply H2. reflexivity.
  - apply H3. reflexivity.
  - apply H4. reflexivity.
Defined.

(** Against C6 as stated: the carrier [ObjectAsStr('a.nc')] wraps a
    string, and the adapter applies the converter to it instead of
    passing it through. *)
Lemma maybe_coerce_with_converts_wrapped_string :
  ObjectAsStr hash id (PyStr "a.nc") None w0 = (OK path_carrier, w1)
  /\ maybe_coerce_with failing_convert path_carrier w1
     = (Error (OtherError "OSError" "file not found"), w1)
  /\ maybe_coerce_with failing_convert path_carrier w1
     <> (OK (PyStr "a.nc"), w1).
Proof. repeat split. discriminate. Qed.

Lemma with_output_contract_witness :
  with_output MoreExamples.truth cube_command (PyStr "out.nc") w0
  = (OK PyNone, World tt [] [] [(cube, PyStr "out.nc")] 0)
  /\ with_output MoreExamples.truth cube_command PyNone w0 = (OK cube, w0)
  /\ with_output MoreExamples.truth cube_command (PyStr "") w0
     = (OK cube, w0).
Proof.
  destruct (with_output_contract MoreExamples.truth cube_command w0
                                 "out.nc" eq_refl)
    as (H1 & H2 & H3).
  split; [| split].
  - apply H1. discriminate.
  - exact H2.
  - exact H3.
Defined.

Lemma dispatcher_receives_strings_witness :
  forallb is_str [PyStr "a"; five_carrier; PyCarrier 1 "<builtins.int@5>" five]
  = true
  /\ Forall2 (fun arg arg' => is_str arg = true -> arg' = arg)
             [PyStr "a"; five_carrier; five]
             [PyStr "a"; five_carrier; PyCarrier 1 "<builtins.int@5>" five].
Proof.
  apply (proj2 (dispatcher_receives_strings
                  hash id repr cube_dispatcher "improver" false false
                  [PyStr "a"; five_carrier; five] w1)
               (fun arg => ret arg)
               [PyStr "a"; five_carrier; PyCarrier 1 "<builtins.int@5>" five]
               (World tt [] [] [] 2)).
  reflexivity.
Defined.

Lemma process_velocity_guard_witness :
  NowcastExtrapolate.process
    (fun _ _ e => (OK (0, 0), e : unit))
    (fun _ _ _ _ (_ : option unit) _ _ e => (OK [0], e))
    (fun _ _ e => (OK 0, e))
    (fun _ _ => OK false)
    (Some 1) (Some 2) None (Some 3) None None None 360 15 0
    (NowcastExtrapolate.State tt [])
  = (Error (ValueError NowcastExtrapolate.mix_msg),
     NowcastExtrapolate.State tt [])
  /\ NowcastExtrapolate.velocities
       (fun _ _ e => (OK (0, 0), e : unit))
       (Some 2) (Some 4) None None (NowcastExtrapolate.State tt [])
     = (OK (Some 2, Some 4), NowcastExtrapolate.State tt []).
Proof.
  split.
  - apply (proj1 (process_velocity_guard
                    (fun _ _ e => (OK (0, 0), e : unit))
                    (fun _ _ _ _ (_ : option unit) _ _ e => (OK [0], e))
                    (fun _ _ e => (OK 0, e))
                    (fun _ _ => OK false)
                    (Some 1) (Some 2) None (Some 3) None None None
                    360 15 0 (NowcastExtrapolate.State tt []))).
    reflexivity.
  - apply (proj2 (process_velocity_guard
                    (fun _ _ e => (OK (0, 0), e : unit))
                    (fun _ _ _ _ (_ : option unit) _ _ e => (OK [0], e))
                    (fun _ _ e => (OK 0, e))
                    (fun _ _ => OK false)
                    None (Some 2) (Some 4) None None None None
                    360 15 0 (NowcastExtrapolate.State tt []))).
    reflexivity.
Defined.

End Instances.

(** * More about the code *)

(** ** The bracket parser, both ways *)

Section BracketMore.

Import Bracket.

Lemma is_bracket_false (tok : string) :
  is_bracket tok = false -> (tok =? "[") = false /\ (tok =? "]") = false.
Proof. unfold is_bracket. now apply orb_false_elim. Qed.

(** Parsing what [rebracket] writes for a well-formed node puts the node
    back at the end of the current frame. *)
Lemma scan_rebracket (node : pyobj) :
  well_formed node = true ->
  forall rest i stack outargs,
    scan (rebracket node ++ rest) i stack outargs
    = scan rest (i + length (rebracket node)) stack (outargs ++ [node]).
Proof.
  induction node as [| s | k items IH | m n j | a n o _]
    using pyobj_nested_ind; intros Hwf; try discriminate.
  - intros rest i stack outargs. simpl in Hwf |- *.
    apply negb_true_iff, is_bracket_false in Hwf as [-> ->].
    now rewrite Nat.add_1_r.
  - destruct k; [| discriminate]. simpl in Hwf.
    assert (forall rest i stack outargs,
               scan (flat_map rebracket items ++ rest) i stack outargs
               = scan rest (i + length (flat_map rebracket items)) stack
                      (outargs ++ items)) as Hitems.
    { clear - IH Hwf.
      induction IH as [| x l Hx _ IHl]; intros rest i stack outargs.
      - simpl. now rewrite Nat.add_0_r, app_nil_r.
      - simpl in Hwf. apply andb_prop in Hwf as [Hwx Hwl].
        simpl. rewrite <- app_assoc, (Hx Hwx), (IHl Hwl).
        rewrite length_app, Nat.add_assoc, <- app_assoc. reflexivity. }
    intros rest i stack outargs. simpl.
    rewrite <- app_assoc, Hitems. simpl.
    rewrite length_app. simpl.
    replace (i + S (length (flat_map rebracket items) + 1))
      with (S (S i + length (flat_map rebracket items))) by lia.
    reflexivity.
Qed.

Lemma scan_rebracket_all (nodes : list pyobj) :
  forallb well_formed nodes = true ->
  forall rest i stack outargs,
    scan (rebracket_all nodes ++ rest) i stack outargs
    = scan rest (i + length (rebracket_all nodes)) stack (outargs ++ nodes).
Proof.
  unfold rebracket_all.
  induction nodes as [| x l IH]; intros Hwf rest i stack outargs.
  - simpl. now rewrite Nat.add_0_r, app_nil_r.
  - simpl in Hwf. apply andb_prop in Hwf as [Hwx Hwl]. simpl.
    rewrite <- app_assoc, (scan_rebracket _ Hwx), (IH Hwl).
    rewrite length_app, Nat.add_assoc, <- app_assoc. reflexivity.
Qed.

Lemma unbracket_rebracket_all (nodes : list pyobj) :
  forallb well_formed nodes = true ->
  unbracket (rebracket_all nodes) = OK nodes.
Proof.
  intros Hwf. unfold unbracket.
  rewrite <- (app_nil_r (rebracket_all nodes)) at 1.
  now rewrite (scan_rebracket_all _ Hwf).
Qed.

(** The parser builds well-formed nodes only. *)
Lemma scan_well_formed (args : list string) :
  forall i stack outargs stack' outargs',
    Forall (fun frame => forallb well_formed frame = true) stack ->
    forallb well_formed outargs = true ->
    scan args i stack outargs = OK (stack', outargs') ->
    Forall (fun frame => forallb well_formed frame = true) stack'
    /\ forallb well_formed outargs' = true.
Proof.
  induction args as [| tok rest IH];
    intros i stack outargs stack' outargs' Hs Ho H; simpl in H.
  - injection H as <- <-. now split.
  - destruct (token_cases tok) as [-> | -> _ | Hopen Hclose]; simpl in H.
    + apply IH in H; auto.
    + destruct stack as [| top below]; [discriminate |].
      inversion Hs as [| ? ? Htop Hbelow]; subst.
      apply IH in H; auto.
      rewrite forallb_app, Htop. simpl. now rewrite Ho.
    + rewrite Hopen, Hclose in H. apply IH in H; auto.
      rewrite forallb_app, Ho. simpl. unfold is_bracket.
      now rewrite Hopen, Hclose.
Qed.

Lemma unbracket_inv (tokens : list string) (nested : list pyobj) :
  unbracket tokens = OK nested ->
  scan tokens 0 [] [] = OK ([], nested).
Proof.
  unfold unbracket.
  destruct (scan tokens 0 [] []) as [[[| top below] outargs] | e];
    try discriminate.
  now intros [= ->].
Qed.

(** What a successful parse gives: a well-formed list that writes back
    to the tokens. *)
Lemma unbracket_sound (tokens : list string) (nested : list pyobj) :
  unbracket tokens = OK nested ->
  forallb well_formed nested = true /\ rebracket_all nested = tokens.
Proof.
  intros H. apply unbracket_inv in H. split.
  - eapply scan_well_formed in H; [apply H | constructor | reflexivity].
  - now apply scan_tokens in H.
Qed.

(** X1.  [unbracket] returns exactly on the balanced token lists. *)
Theorem unbracket_returns_iff_balanced (tokens : list string) :
  (exists nested, unbracket tokens = OK nested) <-> balanced tokens = true.
Proof.
  split.
  - intros [nested H]. apply unbracket_inv in H.
    pose proof (scan_follows_depth tokens 0 [] []) as S. simpl in S.
    unfold balanced.
    destruct (depth_after 0 tokens) as [d |].
    + destruct S as (st & out & Hscan & Hlen).
      rewrite H in Hscan. injection Hscan as <- _. now subst d.
    + destruct S as [e He]. congruence.
  - intros H. destruct (unbracket_balanced tokens H) as (nested & _ & Hu).
    now exists nested.
Qed.

(** X2.  Whatever [unbracket] returns holds plain strings that are no
    brackets and lists of such, nothing else. *)
Theorem unbracket_well_formed (tokens : list string) (nested : list pyobj) :
  unbracket tokens = OK nested -> forallb well_formed nested = true.
Proof. intros H. now apply unbracket_sound in H. Qed.

(** X3.  Parsing the tokens written for a well-formed nested list gives
    the list back. *)
Theorem unbracket_of_rebracket (nested : list pyobj) :
  forallb well_formed nested = true ->
  unbracket (rebracket_all nested) = OK nested.
Proof. apply unbracket_rebracket_all. Qed.

(** X4.  Parsing is compositional: the parse of [a [ b ] c] is the parse
    of [a], then the parse of [b] as one nested list, then the parse of
    [c]; and the parse of [a c] is the two parses one after the other. *)
Theorem unbracket_compose (a b c : list string) (a' b' c' : list pyobj) :
  unbracket a = OK a' ->
  unbracket b = OK b' ->
  unbracket c = OK c' ->
  unbracket (a ++ "[" :: b ++ "]" :: c) = OK (a' ++ PySeq SeqList b' :: c')
  /\ unbracket (a ++ c) = OK (a' ++ c').
Proof.
  intros Ha Hb Hc.
  apply unbracket_sound in Ha as [Wa <-].
  apply unbracket_sound in Hb as [Wb <-].
  apply unbracket_sound in Hc as [Wc <-].
  split.
  - replace (rebracket_all a' ++ "[" :: rebracket_all b' ++ "]"
               :: rebracket_all c')
      with (rebracket_all (a' ++ PySeq SeqList b' :: c')).
    + apply unbracket_rebracket_all.
      rewrite forallb_app. simpl. now rewrite Wa, Wb, Wc.
    + unfold rebracket_all. rewrite flat_map_app. simpl.
      now rewrite <- app_assoc.
  - replace (rebracket_all a' ++ rebracket_all c')
      with (rebracket_all (a' ++ c')).
    + apply unbracket_rebracket_all. rewrite forallb_app. now rewrite Wa, Wc.
    + unfold rebracket_all. now rewrite flat_map_app.
Qed.

(** Where the scan stops with an error. *)
Lemma scan_error (args : list string) :
  forall i stack outargs e,
    scan args i stack outargs = Error e ->
    exists k,
      e = ValueError (mismatch_msg (i + k))
      /\ k < length args
      /\ nth k args "" = "]"
      /\ depth_after (length stack) (firstn k args) = Some 0.
Proof.
  induction args as [| tok rest IH]; intros i stack outargs e H;
    simpl in H; [discriminate |].
  destruct (token_cases tok) as [-> | -> _ | Hopen Hclose]; simpl in H.
  - apply IH in H as (k & -> & Hk & Hn & Hd). exists (S k).
    repeat split; auto; [f_equal; f_equal; lia | simpl; lia].
  - destruct stack as [| top below].
    + injection H as <-. exists 0. rewrite Nat.add_0_r.
      repeat split; simpl; auto; lia.
    + apply IH in H as (k & -> & Hk & Hn & Hd). exists (S k).
      repeat split; auto; [f_equal; f_equal; lia | simpl; lia].
  - rewrite Hopen, Hclose in H.
    apply IH in H as (k & -> & Hk & Hn & Hd). exists (S k).
    repeat split; auto; [f_equal; f_equal; lia | simpl; lia |].
    simpl. now rewrite Hopen, Hclose.
Qed.

(** X5.  The only exception [unbracket] raises is the mismatch
    [ValueError]; its position is at most the length of the input; when
    it is inside the input the token there is a [']'] and the tokens
    before it are balanced, and when it is the length every [']'] had its
    ['['] and some ['['] is left open. *)
Theorem unbracket_error_shape (tokens : list string) (e : exn) :
  unbracket tokens = Error e ->
  exists p,
    e = ValueError (mismatch_msg p)
    /\ p <= length tokens
    /\ (p < length tokens ->
        nth p tokens "" = "]" /\ balanced (firstn p tokens) = true)
    /\ (p = length tokens -> exists d, depth_after 0 tokens = Some (S d)).
Proof.
  unfold unbracket. intros H.
  destruct (scan tokens 0 [] []) as [[stack outargs] | e0] eqn:Hscan.
  - destruct stack as [| top below]; [discriminate |].
    injection H as <-. exists (length tokens).
    repeat split; try lia.
    intros _. pose proof (scan_follows_depth tokens 0 [] []) as S.
    simpl in S. destruct (depth_after 0 tokens) as [d |].
    + destruct S as (st & out & Hs & Hlen). rewrite Hscan in Hs.
      injection Hs as <- _. simpl in Hlen. subst d. now eexists.
    + destruct S as [e1 He1]. congruence.
  - injection H as <-.
    apply scan_error in Hscan as (k & -> & Hk & Hn & Hd). exists k.
    simpl in Hd. repeat split; try lia; auto.
    unfold balanced. now rewrite Hd.
Qed.

End BracketMore.

(** ** The output wrappers together *)

Section OutputMore.

Variable E : Type.
Variable py_truth : pyobj -> bool.
Variable py_iter : pyobj -> result (list pyobj).

(** What is written for a destination: one entry when it is true in an
    [if], none otherwise. *)
Lemma save_if_truthy (value output : pyobj) (w : world E) :
  (if truthy py_truth output then save_netcdf value output else ret tt) w
  = (OK tt,
     World (ext w) (calls w) (stdout w)
           (saved w ++ (if truthy py_truth output then [(value, output)] else []))
           (next_addr w)).
Proof.
  destruct (truthy py_truth output); unfold save_netcdf, ret; [reflexivity |].
  rewrite app_nil_r. now destruct w.
Qed.

(** X6.  When the wrapped call returns a pair, the first component is
    returned whatever the intermediate destination, and the second is
    written exactly when that destination holds in [if
    intermediate_output:], so not for [None], an empty string or a number
    that is zero; the first is never written.  When the wrapped call
    returns a list or tuple of another length a [ValueError] is raised
    and nothing is written. *)
Theorem with_intermediate_output_contract
        (wrapped : M (world E) pyobj) (intermediate_output : pyobj)
        (kind : seq_kind) (items : list pyobj) (w w1 : world E) :
  wrapped w = (OK (PySeq kind items), w1) ->
  (forall result intermediate_result,
      items = [result; intermediate_result] ->
      with_intermediate_output py_truth py_iter wrapped intermediate_output w
      = (OK result,
         World (ext w1) (calls w1) (stdout w1)
               (saved w1
                  ++ (if truthy py_truth intermediate_output
                      then [(intermediate_result, intermediate_output)]
                      else []))
               (next_addr w1)))
  /\ (length items <> 2 ->
      exists msg,
        with_intermediate_output py_truth py_iter wrapped intermediate_output w
        = (Error (ValueError msg), w1)).
Proof.
  intros Hw. split.
  - intros result intermediate_result ->.
    unfold with_intermediate_output, bind at 1. rewrite Hw.
    unfold unpack_pair. cbn [unpack_items]. cbv iota beta.
    unfold bind. now rewrite save_if_truthy.
  - intros Hlen. unfold with_intermediate_output, bind. rewrite Hw.
    unfold unpack_pair. cbn [unpack_items].
    destruct items as [| a [| b [| c rest]]]; cbv iota beta;
      try (eexists; reflexivity).
    now contradiction Hlen.
Qed.

(** X7.  [with_output] around [with_intermediate_output]: after the
    wrapped call returned a pair, the intermediate result is written
    first, when its destination holds in [if intermediate_output:], then
    the result, when its own holds in [if output:]; [None] is returned
    when the result was written and the result otherwise. *)
Theorem with_output_over_intermediate
        (wrapped : M (world E) pyobj) (output intermediate_output : pyobj)
        (kind : seq_kind) (result intermediate_result : pyobj)
        (w w1 : world E) :
  wrapped w = (OK (PySeq kind [result; intermediate_result]), w1) ->
  with_output py_truth
    (with_intermediate_output py_truth py_iter wrapped intermediate_output)
    output w
  = (OK (if truthy py_truth output then PyNone else result),
     World (ext w1) (calls w1) (stdout w1)
           (saved w1
              ++ (if truthy py_truth intermediate_output
                  then [(intermediate_result, intermediate_output)]
                  else [])
              ++ (if truthy py_truth output then [(result, output)] else []))
           (next_addr w1)).
Proof.
  intros Hw. unfold with_output, bind at 1.
  unfold with_intermediate_output, bind at 1. rewrite Hw.
  unfold unpack_pair. simpl. unfold bind at 1. rewrite save_if_truthy.
  unfold ret at 1. cbv iota beta.
  destruct (truthy py_truth output).
  - unfold bind, save_netcdf, ret. simpl. now rewrite <- app_assoc.
  - unfold ret. now rewrite app_nil_r.
Qed.

End OutputMore.

(** ** The evaluator: printing, failing, and the whole command line *)

Section EvaluatorMore.

Variable E : Type.
Variable py_hash : pyobj -> option Z.
Variable py_id : pyobj -> Z.
Variable py_repr : pyobj -> string.
Variable dispatcher : string -> list pyobj -> E -> result pyobj * E.
Variable progname : string.

(** *** [verbose] only prints *)

Lemma ObjectAsStr_sim (obj : pyobj) (name : option string)
      (w w' : world E) :
  same_but_stdout w w' ->
  fst (ObjectAsStr py_hash py_id obj name w)
  = fst (ObjectAsStr py_hash py_id obj name w')
  /\ same_but_stdout (snd (ObjectAsStr py_hash py_id obj name w))
                     (snd (ObjectAsStr py_hash py_id obj name w')).
Proof.
  intros (He & Hc & Hs & Hn). unfold ObjectAsStr, new_carrier.
  destruct (is_carrier obj); simpl.
  - now repeat split.
  - rewrite Hn. repeat split; simpl; congruence.
Qed.

Lemma resolve_arg_sim (n1 n2 : pyobj -> M (world E) pyobj) (arg : pyobj) :
  agree n1 n2 arg ->
  agree (resolve_arg py_hash py_id n1) (resolve_arg py_hash py_id n2) arg.
Proof.
  intros Hn w w' Hsim. unfold resolve_arg, bind.
  destruct (is_seq arg).
  - destruct (Hn w w' Hsim) as [Hf Hs].
    destruct (n1 arg w) as [[b | e] w1], (n2 arg w') as [[b' | e'] w1'];
      simpl in Hf, Hs; try discriminate.
    + injection Hf as <-. destruct (is_str b); [now split |].
      now apply ObjectAsStr_sim.
    + now split.
  - unfold ret. destruct (is_str arg); [now split |].
    now apply ObjectAsStr_sim.
Qed.

Lemma resolve_args_sim (n1 n2 : pyobj -> M (world E) pyobj)
      (args : list pyobj) :
  Forall (agree n1 n2) args ->
  forall w w',
    same_but_stdout w w' ->
    fst (resolve_args py_hash py_id n1 args w)
    = fst (resolve_args py_hash py_id n2 args w')
    /\ same_but_stdout (snd (resolve_args py_hash py_id n1 args w))
                       (snd (resolve_args py_hash py_id n2 args w')).
Proof.
  induction 1 as [| arg rest Harg _ IH]; intros w w' Hsim; simpl.
  - now split.
  - unfold bind.
    destruct (resolve_arg_sim Harg Hsim) as [Hf Hs].
    destruct (resolve_arg py_hash py_id n1 arg w) as [[a | e] w1],
             (resolve_arg py_hash py_id n2 arg w') as [[a' | e'] w1'];
      simpl in Hf, Hs; try discriminate;
      [| injection Hf as <-; now split].
    injection Hf as <-. destruct (IH w1 w1' Hs) as [Hf2 Hs2].
    destruct (resolve_args py_hash py_id n1 rest w1) as [[r | e] w2],
             (resolve_args py_hash py_id n2 rest w1') as [[r' | e'] w2'];
      simpl in Hf2, Hs2; try discriminate;
      [| injection Hf2 as <-; now split].
    injection Hf2 as <-. now split.
Qed.

Lemma run_resolved_sim (v1 v2 dry_run : bool) (args : list pyobj)
      (w w' : world E) :
  same_but_stdout w w' ->
  fst (run_resolved py_hash py_id py_repr dispatcher progname v1 dry_run
                    args w)
  = fst (run_resolved py_hash py_id py_repr dispatcher progname v2 dry_run
                      args w')
  /\ same_but_stdout
       (snd (run_resolved py_hash py_id py_repr dispatcher progname v1
                          dry_run args w))
       (snd (run_resolved py_hash py_id py_repr dispatcher progname v2
                          dry_run args w')).
Proof.
  intros (He & Hc & Hs & Hn).
  unfold run_resolved, bind, call_dispatcher, print, ret.
  destruct dry_run.
  - rewrite !orb_true_r. now repeat split.
  - rewrite !orb_false_r, He, Hc, Hs, Hn.
    destruct (dispatcher progname args (ext w')) as [[r | e] e1].
    + destruct v1, v2; now repeat split.
    + now repeat split.
Qed.

Lemma execute_nested_sim (v1 v2 dry_run : bool) (arg : pyobj) :
  agree (execute_nested py_hash py_id py_repr dispatcher progname v1
                        dry_run)
        (execute_nested py_hash py_id py_repr dispatcher progname v2
                        dry_run) arg.
Proof.
  induction arg as [| s | k items IH | m n i | a n o _]
    using pyobj_nested_ind; intros w w' Hsim; try (now split).
  cbn [execute_nested]. unfold bind.
  destruct (resolve_args_sim IH Hsim) as [Hf Hs].
  destruct (resolve_args py_hash py_id
              (execute_nested py_hash py_id py_repr dispatcher progname v1
                              dry_run) items w) as [[args | e] w1],
           (resolve_args py_hash py_id
              (execute_nested py_hash py_id py_repr dispatcher progname v2
                              dry_run) items w') as [[args' | e'] w1'];
    simpl in Hf, Hs; try discriminate; [| injection Hf as <-; now split].
  injection Hf as <-. now apply run_resolved_sim.
Qed.

(** X8.  Whether [verbose] is set changes nothing but what is printed:
    the two runs return or raise the same, make the same dispatcher
    calls, leave the commands in the same state and make the same
    carriers. *)
Theorem verbose_only_prints (v1 v2 dry_run : bool) (args : list pyobj)
        (w : world E) :
  fst (execute_command py_hash py_id py_repr dispatcher progname v1 dry_run
                       args w)
  = fst (execute_command py_hash py_id py_repr dispatcher progname v2
                         dry_run args w)
  /\ same_but_stdout
       (snd (execute_command py_hash py_id py_repr dispatcher progname v1
                             dry_run args w))
       (snd (execute_command py_hash py_id py_repr dispatcher progname v2
                             dry_run args w)).
Proof.
  apply (execute_nested_sim v1 v2 dry_run (PySeq SeqList args)).
  now repeat split.
Qed.

(** *** What a live run prints *)

(** One turn of the loop leaves the state the nested evaluation left,
    up to the carrier it may allocate, and fails only with it. *)
Lemma resolve_arg_frame (nested : pyobj -> M (world E) pyobj)
      (arg : pyobj) (w : world E) :
  let run := resolve_arg py_hash py_id nested arg w in
  let base := if is_seq arg then nested arg w else (OK arg, w) in
  returned (fst run) = returned (fst base)
  /\ ext (snd run) = ext (snd base)
  /\ calls (snd run) = calls (snd base)
  /\ stdout (snd run) = stdout (snd base)
  /\ (forall e, fst run = Error e -> fst base = Error e).
Proof.
  unfold resolve_arg, bind. destruct (is_seq arg).
  - destruct (nested arg w) as [[b | e] w0]; simpl;
      [| now repeat split].
    destruct (is_str b); [repeat split; discriminate |].
    unfold ObjectAsStr, new_carrier.
    destruct (is_carrier b); repeat split; discriminate.
  - unfold ret. destruct (is_str arg); [repeat split; discriminate |].
    unfold ObjectAsStr, new_carrier.
    destruct (is_carrier arg); repeat split; discriminate.
Qed.

Lemma resolve_args_echoes (verbose : bool)
      (nested : pyobj -> M (world E) pyobj) (items : list pyobj) :
  Forall (fun arg =>
            is_seq arg = true ->
            forall w, echoes verbose (invocations arg) w (nested arg w))
         items ->
  forall w,
    echoes verbose (list_sum (map invocations items)) w
           (resolve_args py_hash py_id nested items w).
Proof.
  induction 1 as [| arg rest Harg _ IH]; intros w.
  - exists []. simpl. rewrite app_nil_r. now repeat split.
  - cbn [resolve_args map list_sum]. unfold bind.
    pose proof (resolve_arg_frame nested arg w) as F. cbv zeta in F.
    destruct F as (Fr & _ & _ & Fs & _).
    assert (echoes verbose (invocations arg) w
                   (resolve_arg py_hash py_id nested arg w))
      as (lines1 & H1 & Hq1 & Hv1).
    { destruct (is_seq arg) eqn:Hseq.
      - destruct (Harg eq_refl w) as (lines & Hl & Hq & Hv).
        exists lines. rewrite Fs, Fr. now repeat split.
      - exists []. rewrite Fs, Fr. simpl. rewrite app_nil_r.
        repeat split. intros _.
        destruct arg; try discriminate; reflexivity. }
    destruct (resolve_arg py_hash py_id nested arg w) as [[a | e] w1];
      simpl in H1, Hv1.
    + destruct (IH w1) as (lines2 & H2 & Hq2 & Hv2).
      exists (lines1 ++ lines2).
      destruct (resolve_args py_hash py_id nested rest w1)
        as [[rest' | e] w2]; simpl in H2, Hv2 |- *.
      * rewrite H2, H1, app_assoc. repeat split.
        -- intros Hq. now rewrite (Hq1 Hq), (Hq2 Hq).
        -- intros Hv. rewrite length_app, (Hv1 Hv), (Hv2 Hv). reflexivity.
      * rewrite H2, H1, app_assoc. repeat split.
        -- intros Hq. now rewrite (Hq1 Hq), (Hq2 Hq).
        -- intros Hv. rewrite length_app, (Hv1 Hv).
           specialize (Hv2 Hv). lia.
    + exists lines1. simpl. repeat split; auto.
      intros Hv. specialize (Hv1 Hv). lia.
Qed.

Lemma execute_nested_echoes (verbose : bool) (arg : pyobj) :
  is_seq arg = true ->
  forall w,
    echoes verbose (invocations arg) w
           (execute_nested py_hash py_id py_repr dispatcher progname verbose
                           false arg w).
Proof.
  induction arg as [| s | k items IH | m n i | a n o _]
    using pyobj_nested_ind; intros Hseq w; try discriminate.
  cbn [execute_nested invocations]. unfold bind.
  destruct (resolve_args_echoes _ IH w) as (lines & Hl & Hq & Hv).
  destruct (resolve_args py_hash py_id
              (execute_nested py_hash py_id py_repr dispatcher progname
                              verbose false) items w)
    as [[args | e] w1]; simpl in Hl, Hv.
  - unfold run_resolved, bind, call_dispatcher, print, ret.
    rewrite orb_false_r.
    destruct (dispatcher progname args (ext w1)) as [[r | e] e1].
    + destruct verbose.
      * eexists (lines ++ [_]). simpl. rewrite Hl, app_assoc.
        repeat split; [discriminate |].
        intros _. rewrite length_app, (Hv eq_refl). simpl. lia.
      * exists lines. simpl. repeat split; auto. discriminate.
    + exists lines. simpl. repeat split; auto.
      intros Hvb. rewrite (Hv Hvb). lia.
  - exists lines. simpl. repeat split; auto.
    intros Hvb. specialize (Hv Hvb). lia.
Qed.

(** X9.  A live run without [verbose] prints nothing.  With [verbose] a
    run that returns prints one line for each invocation of the command
    line, and a run that raises prints fewer: none for the call that
    failed. *)
Theorem live_run_echo_lines (verbose : bool) (args : list pyobj)
        (w : world E) :
  exists lines,
    let run := execute_command py_hash py_id py_repr dispatcher progname
                               verbose false args w in
    stdout (snd run) = stdout w ++ lines
    /\ (verbose = false -> lines = [])
    /\ (verbose = true ->
        if returned (fst run)
        then length lines = invocations (PySeq SeqList args)
        else length lines < invocations (PySeq SeqList args)).
Proof.
  exact (execute_nested_echoes verbose (PySeq SeqList args) eq_refl w).
Qed.

(** *** Exceptions *)






(** *** The whole command line *)

Lemma unbracket_ok_balanced (tokens : list string) (nested : list pyobj) :
  Bracket.unbracket tokens = OK nested -> Bracket.balanced tokens = true.
Proof.
  intros H. apply unbracket_inv in H.
  pose proof (scan_follows_depth tokens 0 [] []) as S. simpl in S.
  unfold Bracket.balanced.
  destruct (Bracket.depth_after 0 tokens) as [d |].
  - destruct S as (st & out & Hscan & Hlen).
    rewrite H in Hscan. injection Hscan as <- _. now subst d.
  - destruct S as [e He]. congruence.
Qed.

Lemma unbracket_error_position (tokens : list string) (e : exn) :
  Bracket.unbracket tokens = Error e ->
  exists p, e = ValueError (Bracket.mismatch_msg p) /\ p <= length tokens.
Proof.
  unfold Bracket.unbracket. intros H.
  destruct (Bracket.scan tokens 0 [] []) as [[stack outargs] | e0] eqn:Hs.
  - destruct stack; [discriminate |]. injection H as <-.
    now exists (length tokens).
  - injection H as <-. apply scan_error in Hs as (k & -> & Hk & _).
    exists k. split; [reflexivity | lia].
Qed.




(** X11.  With unbalanced brackets [main] raises the mismatch
    [ValueError], at a position within the tokens or just after them,
    before anything runs: no dispatcher call, nothing printed, the state
    as it was. *)
Theorem main_mismatch_runs_nothing (command : string)
        (tokens : list string) (verbose dry_run : bool) (w : world E) :
  Bracket.balanced tokens = false ->
  exists p,
    p <= length tokens
    /\ main py_hash py_id py_repr dispatcher progname command tokens verbose
            dry_run w
       = (Error (ValueError (Bracket.mismatch_msg p)), w).
Proof.
  intros Hb. unfold main.
  destruct (Bracket.unbracket tokens) as [nested | e] eqn:Hu.
  - apply unbracket_ok_balanced in Hu. congruence.
  - apply unbracket_error_position in Hu as (p & -> & Hp).
    now exists p.
Qed.


End EvaluatorMore.

(** ** The earlier framework as a whole *)

Section ClizeMainFacts.

Import ClizeFramework ClizeMain.

Variable E : Type.
Variable py_id : pyobj -> Z.
Variable py_repr : pyobj -> string.
Variable CLI : string -> list pyobj -> E -> result pyobj * E.

(** The scan finds nothing, or the option and one value. *)
Lemma scan_output_shape (all_args args : list pyobj) :
  forall i,
    if existsb is_outopt args
    then exists output, scan_output all_args i args = [PyStr outopt; output]
    else scan_output all_args i args = [].
Proof.
  induction args as [| arg rest IH]; intros i; simpl; [reflexivity |].
  unfold is_outopt at 1. destruct (str_text arg) as [s |]; simpl.
  - destruct (String.prefix outopt s); simpl; [| apply IH].
    destruct (partition "="%char s) as [[head sep] tail].
    now eexists.
  - apply IH.
Qed.

Lemma postprocess_after_scan (progname : string) (result : pyobj)
      (all_args args : list pyobj) (i : nat) :
  postprocess_command progname result (scan_output all_args i args)
  = if existsb is_outopt args then PyNone else result.
Proof.
  pose proof (scan_output_shape all_args args i) as H.
  destruct (existsb is_outopt args).
  - destruct H as [output ->]. reflexivity.
  - now rewrite H.
Qed.

(** X13.  The result is kept back exactly when some argument is a string
    that begins with [--output], whatever follows in it and whatever the
    destination found; otherwise it is handed on as it is. *)
Theorem postprocess_of_preprocess (progname command : string)
        (result : pyobj) (args : list pyobj) :
  let '(command', args', post_args) :=
    preprocess_command progname command args in
  command' = command
  /\ args' = args
  /\ postprocess_command progname result post_args
     = if existsb is_outopt args then PyNone else result.
Proof.
  unfold preprocess_command. repeat split. apply postprocess_after_scan.
Qed.

(** X14.  With its hooks left alone [main] calls the CLI object once, on
    the command and all the arguments, the output option among them; it
    raises what that call raises, returns [None] when an argument begins
    with [--output] and the result of the call otherwise, and writes
    nothing itself. *)
Theorem clize_main_default (progname command : string) (args : list pyobj)
        (verbose : bool) (w : world E) :
  let out := CLI progname (PyStr command :: args) (ext w) in
  let run := main py_id py_repr CLI progname command args verbose
                  None None None w in
  calls (snd run) = calls w ++ [Call progname (PyStr command :: args)]
  /\ ext (snd run) = snd out
  /\ saved (snd run) = saved w
  /\ fst run
     = match fst out with
       | OK r => OK (if existsb is_outopt args then PyNone else r)
       | Error e => Error e
       end.
Proof.
  cbv zeta. unfold main, process_command, preprocess_command, bind, ret,
    call_dispatcher, print.
  destruct (CLI progname (PyStr command :: args) (ext w)) as [[r | e] e1];
    simpl; [| now repeat split].
  destruct verbose; simpl; repeat split;
    now rewrite postprocess_after_scan.
Qed.

End ClizeMainFacts.

(** ** [nowcast_extrapolate.process] after the guard *)

Section NowcastMore.

Import NowcastExtrapolate.

Variables cube attrs E : Type.
Variable resolve_wind :
  option cube -> option cube -> E -> result (cube * cube) * E.
Variable extrapolate :
  option cube -> option cube -> option cube -> option cube ->
  option attrs -> Z -> Z -> E -> result (list cube) * E.
Variable merge_cube : list cube -> list cube -> E -> result cube * E.
Variable fraction_nonzero : Z -> Z -> result bool.

(** With step [step] the slice keeps the items at [0], [step],
    [2 * step], ... *)
Lemma every_nth_error (step : nat) (l : list cube) :
  0 < step ->
  forall skip i,
    skip < step ->
    nth_error (every step skip l) i = nth_error l (skip + i * step).
Proof.
  intros Hstep. induction l as [| x rest IH]; intros skip i Hskip.
  - simpl. now destruct i, (skip + _).
  - destruct skip as [| skip']; simpl.
    + destruct i as [| i']; [reflexivity |]. simpl.
      rewrite IH by lia.
      destruct step as [| step']; [lia |]. simpl.
      f_equal. lia.
    + now rewrite IH by lia.
Qed.

Lemma every_one (l : list cube) : every 1 0 l = l.
Proof. induction l as [| x rest IH]; simpl; [| rewrite IH]; reflexivity. Qed.

(** X15.  [forecast_cubes[::step]] with a positive step holds, at
    position [i], the forecast at position [i * step], and nothing when
    there is none there; a zero step raises [ValueError]. *)
Theorem stride_positions (step : Z) (forecast_cubes : list cube) :
  ((0 < step)%Z ->
   exists kept,
     stride step forecast_cubes = OK kept
     /\ forall i,
         nth_error kept i
         = nth_error forecast_cubes (i * Z.to_nat step))
  /\ (step = 0%Z ->
      exists msg, stride step forecast_cubes = Error (ValueError msg)).
Proof.
  unfold stride. split.
  - intros Hpos.
    assert ((step =? 0)%Z = false) as -> by lia.
    assert ((0 <? step)%Z = true) as -> by lia.
    eexists. split; [reflexivity |]. intros i.
    now rewrite every_nth_error by lia.
  - intros ->. simpl. now eexists.
Qed.

(** X16.  Whatever the arguments, [process] runs its plugins in one
    order and at most once each: the wind resolution, only when speed and
    direction are both given and neither component is; then the
    extrapolation, on the accumulation fidelity when that is positive and
    on the lead time interval otherwise; then the merge.  A call that
    returns has extrapolated and merged. *)
Theorem process_plugin_order
        (input_cube u_cube v_cube speed_cube direction_cube
         orographic_enhancement_cube : option cube)
        (attributes_dict : option attrs)
        (max_lead_time lead_time_interval accumulation_fidelity : Z)
        (s : state E) :
  let run :=
    process resolve_wind extrapolate merge_cube fraction_nonzero
            input_cube u_cube v_cube
            speed_cube direction_cube orographic_enhancement_cube
            attributes_dict max_lead_time lead_time_interval
            accumulation_fidelity s in
  let time_interval :=
    if (0 <? accumulation_fidelity)%Z then accumulation_fidelity
    else lead_time_interval in
  exists wind rest,
    events (snd run) = events s ++ wind ++ rest
    /\ (wind = []
        \/ (wind = [ResolvedWind]
            /\ given speed_cube = true /\ given direction_cube = true
            /\ given u_cube = false /\ given v_cube = false))
    /\ (rest = []
        \/ rest = [Extrapolated time_interval max_lead_time]
        \/ rest = [Extrapolated time_interval max_lead_time; Merged])
    /\ (returned (fst run) = true ->
        rest = [Extrapolated time_interval max_lead_time; Merged]).
Proof.
  cbv zeta. unfold process, bind.
  assert (exists wind,
             events (snd (velocities resolve_wind u_cube v_cube speed_cube
                                     direction_cube s))
             = events s ++ wind
             /\ (wind = []
                 \/ (wind = [ResolvedWind]
                     /\ given speed_cube = true
                     /\ given direction_cube = true
                     /\ given u_cube = false /\ given v_cube = false)))
    as (wind & Hw & Hwind).
  { unfold velocities, bind, plugin, raise, ret.
    destruct (given speed_cube && given direction_cube
              && negb (given u_cube || given v_cube)) eqn:Hsd.
    - exists [ResolvedWind].
      apply andb_prop in Hsd as [Hsd Huv].
      apply andb_prop in Hsd as [Hs Hd].
      apply negb_true_iff, orb_false_elim in Huv as [Hu Hv].
      destruct (resolve_wind speed_cube direction_cube (plugins s))
        as [[uv | e] e1]; simpl; split; auto 10.
    - exists []. rewrite app_nil_r.
      destruct (given u_cube && given v_cube
                && negb (given speed_cube || given direction_cube));
        simpl; split; auto. }
  destruct (velocities resolve_wind u_cube v_cube speed_cube direction_cube
                       s) as [[uv | e] s0]; simpl in Hw.
  2: { exists wind, []. rewrite app_nil_r. simpl.
       repeat split; auto. discriminate. }
  unfold bind, plugin, raise, ret.
  destruct (0 <? accumulation_fidelity)%Z.
  - destruct (fraction_nonzero max_lead_time accumulation_fidelity)
      as [[|] | e0].
    + exists wind, []. rewrite app_nil_r. simpl.
      repeat split; auto. discriminate.
    + destruct (extrapolate input_cube (fst uv) (snd uv)
                            orographic_enhancement_cube attributes_dict
                            accumulation_fidelity max_lead_time (plugins s0))
        as [[fc | e] e1]; simpl.
      * destruct (accumulation_fidelity =? 0)%Z; simpl.
        -- exists wind, [Extrapolated accumulation_fidelity max_lead_time].
           rewrite Hw, <- app_assoc. repeat split; auto. discriminate.
        -- destruct (stride (lead_time_interval / accumulation_fidelity)
                            fc) as [kept | e]; simpl.
           ++ destruct (merge_cube fc kept e1) as [r e2]. simpl.
              exists wind,
                [Extrapolated accumulation_fidelity max_lead_time; Merged].
              rewrite Hw, <- !app_assoc. repeat split; auto.
           ++ exists wind, [Extrapolated accumulation_fidelity max_lead_time].
              rewrite Hw, <- app_assoc. repeat split; auto. discriminate.
      * exists wind, [Extrapolated accumulation_fidelity max_lead_time].
        rewrite Hw, <- app_assoc. repeat split; auto. discriminate.
    + exists wind, []. rewrite app_nil_r. simpl.
      repeat split; auto. discriminate.
  - destruct (extrapolate input_cube (fst uv) (snd uv)
                          orographic_enhancement_cube attributes_dict
                          lead_time_interval max_lead_time (plugins s0))
      as [[fc | e] e1]; simpl.
    + destruct (lead_time_interval =? 0)%Z; simpl.
      * exists wind, [Extrapolated lead_time_interval max_lead_time].
        rewrite Hw, <- app_assoc. repeat split; auto. discriminate.
      * destruct (stride (lead_time_interval / lead_time_interval) fc)
          as [kept | e]; simpl.
        -- destruct (merge_cube fc kept e1) as [r e2]. simpl.
           exists wind,
             [Extrapolated lead_time_interval max_lead_time; Merged].
           rewrite Hw, <- !app_assoc. repeat split; auto.
        -- exists wind, [Extrapolated lead_time_interval max_lead_time].
           rewrite Hw, <- app_assoc. repeat split; auto. discriminate.
    + exists wind, [Extrapolated lead_time_interval max_lead_time].
      rewrite Hw, <- app_assoc. repeat split; auto. discriminate.
Qed.

(** X17.  Without accumulations, with the two components given and an
    extrapolation that returned: every forecast is kept for the merge
    when the lead time interval is not zero, and when it is zero the
    division raises, after the extrapolation and with no merge. *)
Theorem process_without_accumulations
        (input_cube orographic_enhancement_cube : option cube)
        (u v : cube) (attributes_dict : option attrs)
        (max_lead_time lead_time_interval accumulation_fidelity : Z)
        (s : state E) (forecast_cubes : list cube) (e1 : E) :
  (accumulation_fidelity <= 0)%Z ->
  extrapolate input_cube (Some u) (Some v) orographic_enhancement_cube
              attributes_dict lead_time_interval max_lead_time (plugins s)
  = (OK forecast_cubes, e1) ->
  let run :=
    process resolve_wind extrapolate merge_cube fraction_nonzero
            input_cube (Some u)
            (Some v) None None orographic_enhancement_cube attributes_dict
            max_lead_time lead_time_interval accumulation_fidelity s in
  (lead_time_interval <> 0%Z ->
   run
   = (fst (merge_cube forecast_cubes forecast_cubes e1),
      State (snd (merge_cube forecast_cubes forecast_cubes e1))
            (events s
               ++ [Extrapolated lead_time_interval max_lead_time; Merged])))
  /\ (lead_time_interval = 0%Z ->
      exists cls msg,
        run
        = (Error (OtherError cls msg),
           State e1 (events s ++ [Extrapolated 0 max_lead_time]))).
Proof.
  intros Haf Hex. cbv zeta.
  unfold process, velocities, bind, plugin, raise, ret. simpl.
  assert ((0 <? accumulation_fidelity)%Z = false) as -> by lia.
  rewrite Hex. simpl. split.
  - intros Hne.
    assert ((lead_time_interval =? 0)%Z = false) as -> by lia.
    rewrite Z.div_same by assumption.
    unfold stride. simpl. rewrite every_one.
    destruct (merge_cube forecast_cubes forecast_cubes e1) as [r e2].
    simpl. now rewrite <- app_assoc.
  - intros ->. simpl. now eexists _, _.
Qed.

End NowcastMore.

(** ** The help command of the earlier framework *)

Section ClizeHelpFacts.

Import ClizeFramework ClizeMain ClizeHelp.

Variable E : Type.
Variable py_id : pyobj -> Z.
Variable py_repr : pyobj -> string.
Variable CLI : string -> list pyobj -> E -> result pyobj * E.

(** [partition] cuts the text at the first separator: the three parts
    make the text again and the first holds no separator. *)
Lemma partition_parts (sep : ascii) (s : string) :
  let '(head, found, tail) := partition sep s in
  (head ++ found ++ tail)%string = s
  /\ occurs sep head = false
  /\ (found = String sep "" \/ (found = "" /\ tail = "" /\ head = s)).
Proof.
  induction s as [| c rest IH]; simpl.
  - repeat split. now right.
  - destruct (Ascii.eqb c sep) eqn:Hc.
    + apply Ascii.eqb_eq in Hc as ->. simpl. repeat split. now left.
    + destruct (partition sep rest) as [[head found] tail].
      destruct IH as (Hs & Ho & Hf). simpl. rewrite Hs, Hc, Ho.
      repeat split. destruct Hf as [-> | (-> & -> & ->)]; [now left |].
      right. now repeat split.
Qed.

Lemma help_args_nonempty (command : option string) (usage : bool) :
  help_args command usage <> [].
Proof.
  unfold help_args. destruct command as [c |]; [destruct (c =? "") |];
    discriminate.
Qed.

(** X18.  [improver_help] calls the CLI object once, under the program
    name cut before its first space, with the command when one is given,
    then [--help], then [--usage] when it is asked for; it prints nothing
    and hands on what the call returns or raises. *)
Theorem improver_help_call (progname : string) (command : option string)
        (usage : bool) (w : world E) :
  let name := fst (fst (partition " "%char progname)) in
  let args := map PyStr (help_args command usage) in
  let run := improver_help py_id py_repr CLI progname command usage w in
  occurs " "%char name = false
  /\ String.prefix name progname = true
  /\ In (PyStr "--help") args
  /\ calls (snd run) = calls w ++ [Call name args]
  /\ stdout (snd run) = stdout w
  /\ fst run = fst (CLI name args (ext w)).
Proof.
  cbv zeta. pose proof (partition_parts " "%char progname) as Hp.
  destruct (partition " "%char progname) as [[head found] tail] eqn:Hpart.
  destruct Hp as (Hs & Ho & _).
  unfold improver_help. rewrite Hpart. simpl fst.
  split; [exact Ho |]. split.
  { rewrite <- Hs. clear. induction head as [| c h IH]; simpl.
    - now destruct (found ++ tail)%string.
    - destruct (ascii_dec c c); [exact IH | contradiction]. }
  split.
  { apply in_map. unfold help_args. apply in_or_app. right. now left. }
  pose proof (help_args_nonempty command usage) as Hne.
  destruct (help_args command usage) as [| first others]; [easy |].
  unfold process_command, bind, call_dispatcher, ret. simpl.
  now destruct (CLI head (PyStr first :: map PyStr others) (ext w))
    as [[r | e] e1].
Qed.

End ClizeHelpFacts.

(** ** The further properties on concrete inputs *)

Section MoreInstances.

Import Examples MoreExamples.

Lemma unbracket_returns_iff_balanced_witness :
  exists nested, Bracket.unbracket ["a"; "["; "b"; "]"] = OK nested.
Proof.
  apply (proj2 (unbracket_returns_iff_balanced ["a"; "["; "b"; "]"])).
  reflexivity.
Defined.

Lemma unbracket_well_formed_witness :
  forallb well_formed [PyStr "a"; PySeq SeqList [PyStr "b"]] = true.
Proof.
  apply (unbracket_well_formed ["a"; "["; "b"; "]"]). reflexivity.
Defined.

Lemma unbracket_of_rebracket_witness :
  Bracket.unbracket
    (Bracket.rebracket_all
       [PyStr "a"; PySeq SeqList [PySeq SeqList []; PyStr "b"]])
  = OK [PyStr "a"; PySeq SeqList [PySeq SeqList []; PyStr "b"]].
Proof. apply unbracket_of_rebracket. reflexivity. Defined.

Lemma unbracket_compose_witness :
  Bracket.unbracket (["a"] ++ "[" :: ["b"; "["; "]"] ++ "]" :: ["c"])
  = OK ([PyStr "a"]
          ++ PySeq SeqList [PyStr "b"; PySeq SeqList []] :: [PyStr "c"])
  /\ Bracket.unbracket (["a"] ++ ["c"]) = OK ([PyStr "a"] ++ [PyStr "c"]).
Proof.
  apply (unbracket_compose ["a"] ["b"; "["; "]"] ["c"]); reflexivity.
Defined.

Lemma unbracket_error_shape_witness :
  exists p,
    ValueError "Mismatched bracket at position 1."
    = ValueError (Bracket.mismatch_msg p)
    /\ p <= 3
    /\ (p < 3 ->
        nth p ["a"; "]"; "b"] "" = "]"
        /\ Bracket.balanced (firstn p ["a"; "]"; "b"]) = true)
    /\ (p = 3 ->
        exists d, Bracket.depth_after 0 ["a"; "]"; "b"] = Some (S d)).
Proof.
  apply (unbracket_error_shape ["a"; "]"; "b"]). reflexivity.
Defined.

Lemma with_intermediate_output_contract_witness :
  with_intermediate_output truth no_iter pair_command (PyStr "mid.nc") w0
  = (OK cube, World tt [] [] ([] ++ [(five, PyStr "mid.nc")]) 0)
  /\ with_intermediate_output truth no_iter pair_command zero w0
     = (OK cube, World tt [] [] ([] ++ []) 0).
Proof.
  split.
  - apply (proj1 (with_intermediate_output_contract
                    truth no_iter pair_command (PyStr "mid.nc") w0 eq_refl)
                 cube five).
    reflexivity.
  - apply (proj1 (with_intermediate_output_contract
                    truth no_iter pair_command zero w0 eq_refl)
                 cube five).
    reflexivity.
Defined.

Lemma with_output_over_intermediate_witness :
  with_output truth
              (with_intermediate_output truth no_iter pair_command
                                        (PyStr "mid.nc"))
              (PyStr "out.nc") w0
  = (OK PyNone,
     World tt [] []
           ([] ++ [(five, PyStr "mid.nc")] ++ [(cube, PyStr "out.nc")]) 0)
  /\ with_output truth
                 (with_intermediate_output truth no_iter pair_command
                                           (PyStr "mid.nc"))
                 zero w0
     = (OK cube, World tt [] [] ([] ++ [(five, PyStr "mid.nc")] ++ []) 0).
Proof.
  split.
  - apply (with_output_over_intermediate
             truth no_iter pair_command (PyStr "out.nc") (PyStr "mid.nc")
             (kind := SeqTuple) (result := cube)
             (intermediate_result := five) w0 (w1 := w0)).
    reflexivity.
  - apply (with_output_over_intermediate
             truth no_iter pair_command zero (PyStr "mid.nc")
             (kind := SeqTuple) (result := cube)
             (intermediate_result := five) w0 (w1 := w0)).
    reflexivity.
Defined.

Lemma live_run_echo_lines_witness :
  exists lines,
    stdout (snd (execute_command hash id repr cube_dispatcher "improver"
                                 true false nested_line w0))
    = lines
    /\ length lines = 2.
Proof.
  destruct (live_run_echo_lines hash id repr cube_dispatcher "improver"
                                true nested_line w0)
    as (lines & Hs & _ & Hv).
  exists lines. split; [exact Hs | exact (Hv eq_refl)].
Defined.


Lemma main_mismatch_runs_nothing_witness :
  exists p,
    p <= 3
    /\ main hash id repr cube_dispatcher "improver" "cmd" ["a"; "["; "b"]
            false false w0
       = (Error (ValueError (Bracket.mismatch_msg p)), w0).
Proof.
  apply (main_mismatch_runs_nothing
           hash id repr cube_dispatcher "improver" "cmd" ["a"; "["; "b"]
           false false w0).
  reflexivity.
Defined.


Lemma stride_positions_witness :
  exists kept,
    NowcastExtrapolate.stride 2 [10; 11; 12; 13; 14] = OK kept
    /\ forall i, nth_error kept i = nth_error [10; 11; 12; 13; 14] (i * 2).
Proof.
  apply (proj1 (stride_positions 2 [10; 11; 12; 13; 14])). reflexivity.
Defined.

Lemma process_plugin_order_witness :
  exists wind rest,
    NowcastExtrapolate.events
      (snd (NowcastExtrapolate.process
              (fun _ _ e => (OK (0, 0), e : unit))
              (fun _ _ _ _ (_ : option unit) _ _ e => (OK [1; 2], e))
              (fun _ _ e => (OK 0, e))
              (fun _ _ => OK false)
              None None None (Some 3) (Some 4) None None 360 15 0
              (NowcastExtrapolate.State tt [])))
    = [] ++ wind ++ rest
    /\ rest = [NowcastExtrapolate.Extrapolated 15 360;
               NowcastExtrapolate.Merged].
Proof.
  destruct (process_plugin_order
              (fun _ _ e => (OK (0, 0), e : unit))
              (fun _ _ _ _ (_ : option unit) _ _ e => (OK [1; 2], e))
              (fun _ _ e => (OK 0, e))
              (fun _ _ => OK false)
              None None None (Some 3) (Some 4) None None 360 15 0
              (NowcastExtrapolate.State tt []))
    as (wind & rest & He & _ & _ & Hr).
  exists wind, rest. split; [exact He | exact (Hr eq_refl)].
Defined.

Lemma process_without_accumulations_witness :
  NowcastExtrapolate.process
    (fun _ _ e => (OK (0, 0), e : unit))
    (fun _ _ _ _ (_ : option unit) _ _ e => (OK [1; 2], e))
    (fun _ _ e => (OK 0, e))
    (fun _ _ => OK false)
    None (Some 5) (Some 6) None None None None 360 15 0
    (NowcastExtrapolate.State tt [])
  = (OK 0,
     NowcastExtrapolate.State
       tt ([] ++ [NowcastExtrapolate.Extrapolated 15 360;
                  NowcastExtrapolate.Merged])).
Proof.
  apply (proj1 (process_without_accumulations
                  (fun _ _ e => (OK (0, 0), e : unit))
                  (fun _ _ _ _ (_ : option unit) _ _ e => (OK [1; 2], e))
                  (fun _ _ e => (OK 0, e))
                  (fun _ _ => OK false)
                  None None 5 6 None 360 15 (accumulation_fidelity := 0)
                  (NowcastExtrapolate.State tt [])
                  (forecast_cubes := [1; 2]) (e1 := tt)
                  ltac:(lia) eq_refl)).
  lia.
Defined.

Lemma maybe_coerce_with_resolved_witness :
  maybe_coerce_with failing_convert (PyCarrier 0 "<iris.cube.Cube@42>" cube)
  = ret cube.
Proof.
  apply (maybe_coerce_with_resolved hash id failing_convert cube w0
                                    (w' := w1)); reflexivity.
Defined.

Lemma destination_equals_form_witness :
  ClizeFramework.destination
    ([PyStr "in.nc"] ++ PyStr ("--output=" ++ "a=b.nc")
       :: [PyStr "--output=late.nc"])
  = Some (PyStr "a=b.nc").
Proof.
  apply (destination_equals_form (pre := [PyStr "in.nc"])
                                 [PyStr "--output=late.nc"] "a=b.nc").
  repeat constructor.
Defined.

End MoreInstances.
